(** * StudyTimer: the real-time timer synchronisation client

    A shallow embedding of [src/components/StudyTimer.tsx] and of the timer
    endpoints of the API client ([lib/api.ts]); at the end of the
    definitions, the two updaters of the list of selected files of the
    upload form ([src/components/FileUpload.tsx]).

    The component lives in a browser event loop.  Its hook cells, the
    WebSocket objects it creates, the pending [setTimeout] callbacks and the
    pending HTTP requests are kept in one record, [World]; every callback of
    the source is a computation in a small state-and-exception monad over
    that record, and the event loop is a partial step function that
    dispatches one event to the callback registered for it.

    Numbers: a [number] is an IEEE 754 binary64 double.  The [number]s this
    component keeps ([time_remaining], [current_session], durations, delays)
    hold non-negative integers and are modelled by the integer they hold, in
    [N].  The one place where the component computes with them is
    [formatTime]: its division is the double division, rounded to the
    nearest double, its remainder is exact, and [toString] is embedded for
    the integers below 2^53.  Strings are byte strings; every pattern the
    code searches for is ASCII, so searching bytes and searching UTF-16 code
    units agree. *)

From Stdlib Require Import NArith ZArith Lia Bool Ascii DecimalString DecimalN.
From stdpp Require Import base option list strings.

Local Open Scope N_scope.

(** ** JavaScript string primitives used by the component *)

Module Js.

(** [s.startsWith(p)] *)
Fixpoint startsWith (p s : string) : bool :=
  match p, s with
  | EmptyString, _ => true
  | String a p', String b s' => if Ascii.eqb a b then startsWith p' s' else false
  | String _ _, EmptyString => false
  end.

(** the characters of [s] from position [n] on *)
Fixpoint drop_chars (n : nat) (s : string) : string :=
  match n, s with
  | O, _ => s
  | S n', String _ s' => drop_chars n' s'
  | S _, EmptyString => EmptyString
  end.

(** [s.replace(pat, rep)] with a string pattern: only the first
    occurrence of [pat], scanning from the left, is replaced.  ([rep] holds
    no [$], so no replacement pattern is expanded.) *)
Fixpoint replace (pat rep s : string) : string :=
  if startsWith pat s then rep +:+ drop_chars (String.length pat) s
  else match s with
       | EmptyString => EmptyString
       | String c s' => String c (replace pat rep s')
       end.

(** A non-negative finite double, [mantissa * 2^exponent]. *)
Record Number := { mantissa : N; exponent : Z }.

(** The non-negative integers a double holds exactly: 0, and the integers
    below 2^1024 whose binary numeral has at most 53 significant bits.
    Every integer up to 2^53 is one of them; above it, gaps open. *)
Definition is_double (n : N) : bool :=
  (n =? 0) || ((N.log2 n <=? 1023) && (n mod 2 ^ (N.log2 n - 52) =? 0)).

(** The integer nearest to the quotient of [a] by [b], for [b > 0]; a
    quotient half-way between two integers goes to the even one (IEEE 754
    roundTiesToEven). *)
Definition round_ties_even (a b : N) : N :=
  let q := a / b in
  match 2 * (a mod b) ?= b with
  | Lt => q
  | Eq => if N.even q then q else q + 1
  | Gt => q + 1
  end.

(** The binary exponent of the quotient of [a] by [b], for [a, b > 0]: the
    [d] with [2^d <= a / b < 2^(d + 1)]. *)
Definition quotient_log2 (a b : N) : Z :=
  let d := (Z.of_N (N.log2 a) - Z.of_N (N.log2 b))%Z in
  if b * 2 ^ N.log2 a <=? a * 2 ^ N.log2 b then d else (d - 1)%Z.

(** [a / b] for doubles holding the integers [a] and [b > 0]: the double
    nearest to the exact quotient, ties to even.  The quotient is scaled so
    that it has 53 significant bits and is then rounded to an integer, the
    mantissa.  (The quotient of an integer by 60, the only division of the
    component, never leaves the range of the normal doubles, so neither
    overflow nor gradual underflow arises.) *)
Definition divide (a b : N) : Number :=
  if a =? 0 then {| mantissa := 0; exponent := 0 |}
  else
    let e := (quotient_log2 a b - 52)%Z in
    {| mantissa := if (0 <=? e)%Z then round_ties_even a (b * 2 ^ Z.to_N e)
                   else round_ties_even (a * 2 ^ Z.to_N (- e)) b;
       exponent := e |}.

(** [Math.floor(x)] for a non-negative double: an integer. *)
Definition floor (x : Number) : N :=
  if (0 <=? exponent x)%Z then mantissa x * 2 ^ Z.to_N (exponent x)
  else mantissa x / 2 ^ Z.to_N (- exponent x).

(** [n.toString()] for a double holding an integer [n] below 2^53: its
    decimal digits.  (From 2^53 on, Number::toString writes the shortest
    numeral that reads back as the same double, which need not be the
    decimal expansion of [n], and from 10^21 on it writes an exponent; that
    part of the algorithm is not embedded, and what is stated about
    [formatTime] below keeps the integers it prints under 2^53.) *)
Definition toString (n : N) : string :=
  NilZero.string_of_uint (N.to_uint n).

(** The filler of [padStart]: [fill] repeated and cut to [len] characters.
    [cur] is what is left of the copy of [fill] being consumed. *)
Fixpoint filler (len : nat) (fill cur : string) : string :=
  match len with
  | O => EmptyString
  | S len' =>
      match cur with
      | String c cur' => String c (filler len' fill cur')
      | EmptyString =>
          match fill with
          | String c cur' => String c (filler len' fill cur')
          | EmptyString => EmptyString
          end
      end
  end.

(** [s.padStart(maxLength, fill)] (ECMAScript StringPad, placement start) *)
Definition padStart (maxLength : nat) (fill s : string) : string :=
  if (maxLength <=? String.length s)%nat then s
  else match fill with
       | EmptyString => s
       | _ => filler (maxLength - String.length s) fill fill +:+ s
       end.

(** JavaScript truthiness of a string: every string but the empty one. *)
Definition truthy (s : string) : bool :=
  match s with EmptyString => false | String _ _ => true end.

End Js.

(** ** Module-level constants (StudyTimer.tsx, lines 12-13) *)

(** [process.env.NEXT_PUBLIC_API_URL || 'http://localhost:8000']: an unset
    variable and the empty string are both falsy. *)
Definition API_URL (NEXT_PUBLIC_API_URL : option string) : string :=
  match NEXT_PUBLIC_API_URL with
  | Some s => if Js.truthy s then s else "http://localhost:8000"
  | None => "http://localhost:8000"
  end.

(** [API_URL.replace('http', 'ws')] *)
Definition WS_URL (api_url : string) : string :=
  Js.replace "http" "ws" api_url.

(** The address handed to [new WebSocket] in [connectWebSocket]:
    [`${WS_URL}/api/timer/ws/${userId}`]. *)
Definition ws_address (api_url userId : string) : string :=
  WS_URL api_url +:+ "/api/timer/ws/" +:+ userId.

(** ** The local time formatter (StudyTimer.tsx, lines 137-141)

    [seconds] is a double holding a non-negative integer.
    [Math.floor(seconds / 60)] divides in double arithmetic and rounds the
    quotient before the floor is taken; [seconds % 60] is exact, as the
    remainder of two doubles always is. *)

Definition formatTime (seconds : N) : string :=
  let mins := Js.floor (Js.divide seconds 60) in
  let secs := seconds mod 60 in
  Js.padStart 2 "0" (Js.toString mins) +:+ ":" +:+ Js.padStart 2 "0" (Js.toString secs).

(** ** Data model (types/index.ts) *)

Record TimerState := {
  is_running : bool;
  is_break : bool;
  current_session : N;
  time_remaining : N;
  topic : option string
}.

#[global] Instance TimerState_eq_dec : EqDecision TimerState.
Proof. solve_decision. Defined.

Module Stats.
Record TimerStats := {
  sessions_completed : N;
  total_study_minutes : N;
  total_break_minutes : N;
  current_topic : option string;
  is_break : bool;
  time_remaining : string
}.
End Stats.
Export Stats (TimerStats).

(** [StudyTimerProps]; [userId] defaults to ['default_user']. *)
Record StudyTimerProps := {
  userId : option string;
  currentTopic : option string
}.

Definition userId_of (p : StudyTimerProps) : string :=
  default "default_user" (userId p).

(** A property of a parsed JSON object that the schema declares optional. *)
Inductive Field (A : Type) :=
| Absent
| Null
| Present (a : A).
Arguments Absent {A}.
Arguments Null {A}.
Arguments Present {A} a.

(** An inbound push message after [JSON.parse]: [data.state] is [None] when
    the property is missing or null. *)
Module Push.
Record Message := {
  state : option TimerState;
  notification : Field string
}.
End Push.

(** [event.data] of a message event: text that [JSON.parse] rejects (or that
    parses to [null], so that reading a property of it throws), or text
    that parses to an object. *)
Inductive MessageData :=
| Malformed
| Json (data : Push.Message).

(** ** The API client (lib/api.ts), timer endpoints *)

Inductive Method := GET | POST.

Inductive ParamValue :=
| PString (s : string)
| PNumber (n : N)
| PUndefined.

Record Request := {
  method : Method;
  path : string;
  params : list (string * ParamValue)
}.

Module Resp.
Record Data := {
  state : option TimerState;
  stats : option TimerStats
}.
(** An axios response; [data] is [None] for an empty body. *)
Record Response := { data : option Data }.
End Resp.

Inductive Settled :=
| Fulfilled (response : Resp.Response)
| Rejected (error : string).

Module ApiClient.

Definition createTimer (userId : string)
    (studyDuration breakDuration longBreakDuration sessionsUntilLongBreak : N) : Request :=
  {| method := POST; path := "/api/timer/create";
     params := [("user_id", PString userId);
                ("study_duration", PNumber studyDuration);
                ("break_duration", PNumber breakDuration);
                ("long_break_duration", PNumber longBreakDuration);
                ("sessions_until_long_break", PNumber sessionsUntilLongBreak)] |}.

Definition startTimer (userId : string) (topic : option string) : Request :=
  {| method := POST; path := "/api/timer/start";
     params := [("user_id", PString userId);
                ("topic", from_option PString PUndefined topic)] |}.

Definition pauseTimer (userId : string) : Request :=
  {| method := POST; path := "/api/timer/pause";
     params := [("user_id", PString userId)] |}.

Definition resetTimer (userId : string) : Request :=
  {| method := POST; path := "/api/timer/reset";
     params := [("user_id", PString userId)] |}.

Definition getTimerState (userId : string) : Request :=
  {| method := GET; path := "/api/timer/state";
     params := [("user_id", PString userId)] |}.

Definition getTimerStats (userId : string) : Request :=
  {| method := GET; path := "/api/timer/stats";
     params := [("user_id", PString userId)] |}.

End ApiClient.

(** ** The browser side: sockets, timeouts, pending requests *)

Inductive ReadyState := CONNECTING | OPEN | CLOSING | CLOSED.

Definition ReadyState_eqb (a b : ReadyState) : bool :=
  match a, b with
  | CONNECTING, CONNECTING | OPEN, OPEN | CLOSING, CLOSING | CLOSED, CLOSED => true
  | _, _ => false
  end.

(** A WebSocket object.  Its four handlers are the arrow functions of
    [connectWebSocket]; they differ from socket to socket only in the
    [userId] their closure captured. *)
Record WebSocket := {
  url : string;
  readyState : ReadyState;
  ws_userId : string
}.

(** A pending [setTimeout].  The only callback the component registers is
    the reconnect of lines 81-85, closed over [userId]. *)
Record Timeout := {
  due : N;
  delay : N;
  timeout_userId : string
}.

(** What is left of an async function after its [await], with the variables
    its closure captured. *)
Inductive Continuation :=
| after_createTimer (userId : string)
| after_getTimerState
| after_getTimerStats
| after_startTimer
| after_pauseTimer
| after_resetTimer (userId : string).

#[global] Instance Continuation_eq_dec : EqDecision Continuation.
Proof. solve_decision. Defined.

Inductive Permission := granted | denied | prompt.

(** What the page is loaded with: the configured backend address and
    [Notification.permission] ([None] when [window] has no [Notification]). *)
Record Env := {
  NEXT_PUBLIC_API_URL : option string;
  Notification_permission : option Permission
}.

(** The actions of the component that the outside can observe, in order. *)
Inductive Effect :=
| ConsoleLog (msg : string)
| ConsoleError (msg : string)
| ToastSuccess (msg : string) (duration : option N)
| ToastError (msg : string)
| SystemNotification (title body : string)
| HttpSend (id : nat) (req : Request)
| WsNew (h : nat) (address : string)
| WsCloseCall (h : nat)
| SetTimeout (k : nat) (ms : N)
| Uncaught (error : string).

Inductive Lifecycle := Fresh | Mounted | Unmounted.

(** One instance of the component and the part of the browser it talks to.
    The callbacks of an unmounted instance still hold its cells, its ref
    and its sockets; a setter they call writes the cell of the detached
    instance, which is never rendered again. *)
Record World := {
  env : Env;
  now : N;
  lifecycle : Lifecycle;
  props : StudyTimerProps;
  (* hook cells of the component instance *)
  timerState : option TimerState;
  stats : option TimerStats;
  isConnected : bool;
  wsRef : option nat;
  (* objects the callbacks share with the browser *)
  sockets : list WebSocket;
  timeouts : list (option Timeout);
  requests : list (option (Request * Continuation));
  log : list Effect
}.

Definition init (e : Env) : World :=
  {| env := e; now := 0; lifecycle := Fresh;
     props := {| userId := None; currentTopic := None |};
     timerState := None; stats := None; isConnected := false; wsRef := None;
     sockets := []; timeouts := []; requests := []; log := [] |}.

Definition with_now (v : N) (w : World) : World :=
  {| env := env w; now := v; lifecycle := lifecycle w; props := props w;
     timerState := timerState w; stats := stats w; isConnected := isConnected w;
     wsRef := wsRef w; sockets := sockets w; timeouts := timeouts w;
     requests := requests w; log := log w |}.

Definition with_lifecycle (v : Lifecycle) (w : World) : World :=
  {| env := env w; now := now w; lifecycle := v; props := props w;
     timerState := timerState w; stats := stats w; isConnected := isConnected w;
     wsRef := wsRef w; sockets := sockets w; timeouts := timeouts w;
     requests := requests w; log := log w |}.

Definition with_props (v : StudyTimerProps) (w : World) : World :=
  {| env := env w; now := now w; lifecycle := lifecycle w; props := v;
     timerState := timerState w; stats := stats w; isConnected := isConnected w;
     wsRef := wsRef w; sockets := sockets w; timeouts := timeouts w;
     requests := requests w; log := log w |}.

Definition with_timerState (v : option TimerState) (w : World) : World :=
  {| env := env w; now := now w; lifecycle := lifecycle w; props := props w;
     timerState := v; stats := stats w; isConnected := isConnected w;
     wsRef := wsRef w; sockets := sockets w; timeouts := timeouts w;
     requests := requests w; log := log w |}.

Definition with_stats (v : option TimerStats) (w : World) : World :=
  {| env := env w; now := now w; lifecycle := lifecycle w; props := props w;
     timerState := timerState w; stats := v; isConnected := isConnected w;
     wsRef := wsRef w; sockets := sockets w; timeouts := timeouts w;
     requests := requests w; log := log w |}.

Definition with_isConnected (v : bool) (w : World) : World :=
  {| env := env w; now := now w; lifecycle := lifecycle w; props := props w;
     timerState := timerState w; stats := stats w; isConnected := v;
     wsRef := wsRef w; sockets := sockets w; timeouts := timeouts w;
     requests := requests w; log := log w |}.

Definition with_wsRef (v : option nat) (w : World) : World :=
  {| env := env w; now := now w; lifecycle := lifecycle w; props := props w;
     timerState := timerState w; stats := stats w; isConnected := isConnected w;
     wsRef := v; sockets := sockets w; timeouts := timeouts w;
     requests := requests w; log := log w |}.

Definition with_sockets (v : list WebSocket) (w : World) : World :=
  {| env := env w; now := now w; lifecycle := lifecycle w; props := props w;
     timerState := timerState w; stats := stats w; isConnected := isConnected w;
     wsRef := wsRef w; sockets := v; timeouts := timeouts w;
     requests := requests w; log := log w |}.

Definition with_timeouts (v : list (option Timeout)) (w : World) : World :=
  {| env := env w; now := now w; lifecycle := lifecycle w; props := props w;
     timerState := timerState w; stats := stats w; isConnected := isConnected w;
     wsRef := wsRef w; sockets := sockets w; timeouts := v;
     requests := requests w; log := log w |}.

Definition with_requests (v : list (option (Request * Continuation))) (w : World) : World :=
  {| env := env w; now := now w; lifecycle := lifecycle w; props := props w;
     timerState := timerState w; stats := stats w; isConnected := isConnected w;
     wsRef := wsRef w; sockets := sockets w; timeouts := timeouts w;
     requests := v; log := log w |}.

Definition with_log (v : list Effect) (w : World) : World :=
  {| env := env w; now := now w; lifecycle := lifecycle w; props := props w;
     timerState := timerState w; stats := stats w; isConnected := isConnected w;
     wsRef := wsRef w; sockets := sockets w; timeouts := timeouts w;
     requests := requests w; log := v |}.

Definition with_readyState (v : ReadyState) (s : WebSocket) : WebSocket :=
  {| url := url s; readyState := v; ws_userId := ws_userId s |}.

(** ** Callbacks as computations

    A callback runs to completion on the world; it ends normally or by a
    thrown exception.  What it wrote before throwing stays written. *)

Inductive Completion (A : Type) :=
| Normal (a : A)
| Throw (error : string).
Arguments Normal {A} a.
Arguments Throw {A} error.

Definition M (A : Type) : Type := World -> Completion A * World.

Definition ret {A} (a : A) : M A := fun w => (Normal a, w).

Definition bind {A B} (c : M A) (f : A -> M B) : M B := fun w =>
  match c w with
  | (Normal a, w') => f a w'
  | (Throw e, w') => (Throw e, w')
  end.

Declare Scope js_scope.
Delimit Scope js_scope with js.
Bind Scope js_scope with M.
Notation "'let*' x ':=' c 'in' k" := (bind c (fun x => k))
  (at level 10, x name, c at level 100, k at level 200) : js_scope.
Notation "c ';;;' k" := (bind c (fun _ => k))
  (at level 100, k at level 200, right associativity) : js_scope.
Local Open Scope js_scope.

Definition throw {A} (e : string) : M A := fun w => (Throw e, w).

(** [try { body } catch (error) { handler }] *)
Definition try_catch {A} (body : M A) (handler : string -> M A) : M A := fun w =>
  match body w with
  | (Normal a, w') => (Normal a, w')
  | (Throw e, w') => handler e w'
  end.

Definition gets {A} (f : World -> A) : M A := fun w => (Normal (f w), w).
Definition modify (f : World -> World) : M unit := fun w => (Normal tt, f w).

Definition exec {A} (c : M A) (w : World) : World := snd (c w).
Definition completion {A} (c : M A) (w : World) : Completion A := fst (c w).

(** falling through an [if] without [else] *)
Definition skip : M unit := ret tt.

Definition emit (e : Effect) : M unit :=
  modify (fun w => with_log (log w ++ [e]) w).

Definition console_log (msg : string) : M unit := emit (ConsoleLog msg).
Definition console_error (msg : string) : M unit := emit (ConsoleError msg).
Definition toast_success (msg : string) (duration : option N) : M unit :=
  emit (ToastSuccess msg duration).
Definition toast_error (msg : string) : M unit := emit (ToastError msg).

Definition setTimerState (v : option TimerState) : M unit := modify (with_timerState v).
Definition setStats (v : option TimerStats) : M unit := modify (with_stats v).
Definition setIsConnected (v : bool) : M unit := modify (with_isConnected v).

(** [wsRef.current]: the socket object the ref points to, if any *)
Definition current_socket (w : World) : option WebSocket :=
  match wsRef w with
  | Some h => sockets w !! h
  | None => None
  end.

(** [new WebSocket(address)]: a new object in state CONNECTING; its handle is
    its index in the store.  [uid] is the [userId] of the closure whose
    handlers are then attached to it. *)
Definition new_WebSocket (address uid : string) : M nat := fun w =>
  let h := length (sockets w) in
  (Normal h,
   with_log (log w ++ [WsNew h address])
     (with_sockets (sockets w ++ [{| url := address; readyState := CONNECTING; ws_userId := uid |}]) w)).

(** [ws.close()]: starts the closing handshake of a socket that is
    connecting or open; nothing on one that is closing or closed.  The close
    event comes later, from the browser. *)
Definition WebSocket_close (h : nat) : M unit := fun w =>
  match sockets w !! h with
  | Some s =>
      (Normal tt,
       with_log (log w ++ [WsCloseCall h])
         (match readyState s with
          | CONNECTING | OPEN => with_sockets (<[h := with_readyState CLOSING s]> (sockets w)) w
          | CLOSING | CLOSED => w
          end))
  | None => (Normal tt, w)
  end.

(** [setTimeout(callback, ms)] with the reconnect callback closed over [uid]. *)
Definition setTimeout (uid : string) (ms : N) : M unit := fun w =>
  let k := length (timeouts w) in
  (Normal tt,
   with_log (log w ++ [SetTimeout k ms])
     (with_timeouts (timeouts w ++ [Some {| due := now w + ms; delay := ms; timeout_userId := uid |}]) w)).

(** Calling an [async] method of the API client: the request leaves, and the
    caller's continuation waits for it to settle. *)
Definition call (req : Request) (k : Continuation) : M unit := fun w =>
  let id := length (requests w) in
  (Normal tt,
   with_log (log w ++ [HttpSend id req])
     (with_requests (requests w ++ [Some (req, k)]) w)).

(** [await promise]: the response, or the rejection thrown at the await. *)
Definition await (p : Settled) : M Resp.Response :=
  match p with
  | Fulfilled response => ret response
  | Rejected error => throw error
  end.

(** [response.data.x]: a TypeError when [response.data] is not an object. *)
Definition response_data (response : Resp.Response) : M Resp.Data :=
  match Resp.data response with
  | Some d => ret d
  | None => throw "TypeError"
  end.

(** [JSON.parse(event.data)] followed by a property read of the result *)
Definition JSON_parse (d : MessageData) : M Push.Message :=
  match d with
  | Json data => ret data
  | Malformed => throw "SyntaxError"
  end.

(** The truthy value of [data.notification], if it has one. *)
Definition truthy_notification (f : Field string) : option string :=
  match f with
  | Present s => if Js.truthy s then Some s else None
  | Absent | Null => None
  end.

(** ['Notification' in window && Notification.permission === 'granted'] *)
Definition may_notify (e : Env) : bool :=
  match Notification_permission e with
  | Some granted => true
  | _ => false
  end.

(** ** The component (StudyTimer.tsx, lines 20-141) *)

(** lines 91-98 *)
Definition fetchTimerState (uid : string) : M unit :=
  call (ApiClient.getTimerState uid) after_getTimerState.

Definition fetchTimerState_resume (p : Settled) : M unit :=
  try_catch
    (let* response := await p in
     let* d := response_data response in
     setTimerState (Resp.state d))
    (fun error => console_error "Error fetching timer state:").

(** lines 100-107 *)
Definition fetchStats (uid : string) : M unit :=
  call (ApiClient.getTimerStats uid) after_getTimerStats.

Definition fetchStats_resume (p : Settled) : M unit :=
  try_catch
    (let* response := await p in
     let* d := response_data response in
     setStats (Resp.stats d))
    (fun error => console_error "Error fetching stats:").

(** lines 38-46 *)
Definition initializeTimer (uid : string) : M unit :=
  call (ApiClient.createTimer uid 25 5 15 4) (after_createTimer uid).

Definition initializeTimer_resume (uid : string) (p : Settled) : M unit :=
  try_catch
    (let* _ := await p in
     fetchTimerState uid ;;;
     fetchStats uid)
    (fun error => console_error "Timer initialization error:").

(** lines 48-89; the handlers are defined below, one per event *)
Definition connectWebSocket (uid : string) : M unit :=
  let* api := gets (fun w => API_URL (NEXT_PUBLIC_API_URL (env w))) in
  let* ws := new_WebSocket (ws_address api uid) uid in
  modify (with_wsRef (Some ws)).

(** lines 51-54 *)
Definition onopen : M unit :=
  console_log "WebSocket connected" ;;;
  setIsConnected true.

(** lines 56-69 *)
Definition onmessage (event_data : MessageData) : M unit :=
  let* data := JSON_parse event_data in
  setTimerState (Push.state data) ;;;
  match truthy_notification (Push.notification data) return M unit with
  | Some text =>
      toast_success text (Some 5000) ;;;
      let* ok := gets (fun w => may_notify (env w)) in
      if ok then emit (SystemNotification "Study Timer" text) else skip
  | None => skip
  end.

(** lines 71-74 *)
Definition onerror : M unit :=
  console_error "WebSocket error:" ;;;
  setIsConnected false.

(** lines 81-85: the callback handed to [setTimeout] *)
Definition reconnect (uid : string) : M unit :=
  let* cur := gets current_socket in
  match cur with
  | Some s => if ReadyState_eqb (readyState s) CLOSED then connectWebSocket uid else skip
  | None => skip
  end.

(** lines 76-86 *)
Definition onclose (uid : string) : M unit :=
  console_log "WebSocket disconnected" ;;;
  setIsConnected false ;;;
  setTimeout uid 3000.

(** lines 109-116 *)
Definition handleStart (uid : string) (currentTopic : option string) : M unit :=
  call (ApiClient.startTimer uid currentTopic) after_startTimer.

Definition handleStart_resume (p : Settled) : M unit :=
  try_catch
    (let* _ := await p in
     toast_success "Timer started!" None)
    (fun error => toast_error "Failed to start timer").

(** lines 118-125 *)
Definition handlePause (uid : string) : M unit :=
  call (ApiClient.pauseTimer uid) after_pauseTimer.

Definition handlePause_resume (p : Settled) : M unit :=
  try_catch
    (let* _ := await p in
     toast_success "Timer paused" None)
    (fun error => toast_error "Failed to pause timer").

(** lines 127-135 *)
Definition handleReset (uid : string) : M unit :=
  call (ApiClient.resetTimer uid) (after_resetTimer uid).

Definition handleReset_resume (uid : string) (p : Settled) : M unit :=
  try_catch
    (let* _ := await p in
     fetchStats uid ;;;
     toast_success "Timer reset" None)
    (fun error => toast_error "Failed to reset timer").

(** The three command operations, and for each the handler the buttons
    invoke, the request it sends, the continuation that waits for the
    response, and the text of its failure toast. *)
Inductive Command :=
| start (topic : option string)
| pause
| reset.

Definition invoke (c : Command) (uid : string) : M unit :=
  match c with
  | start topic => handleStart uid topic
  | pause => handlePause uid
  | reset => handleReset uid
  end.

Definition request_of (c : Command) (uid : string) : Request :=
  match c with
  | start topic => ApiClient.startTimer uid topic
  | pause => ApiClient.pauseTimer uid
  | reset => ApiClient.resetTimer uid
  end.

Definition continuation_of (c : Command) (uid : string) : Continuation :=
  match c with
  | start _ => after_startTimer
  | pause => after_pauseTimer
  | reset => after_resetTimer uid
  end.

Definition failure_toast (c : Command) : string :=
  match c with
  | start _ => "Failed to start timer"
  | pause => "Failed to pause timer"
  | reset => "Failed to reset timer"
  end.

(** lines 27-36: the effect and its cleanup *)
Definition effect (uid : string) : M unit :=
  initializeTimer uid ;;;
  connectWebSocket uid.

Definition cleanup : M unit :=
  let* cur := gets wsRef in
  match cur with
  | Some h => WebSocket_close h
  | None => skip
  end.

(** What the component returns when rendered (lines 143-268), reduced to the
    values it shows: nothing but a spinner while [timerState] is null. *)
Inductive View :=
| Spinner
| Panel (status : string) (clock : string) (session : N)
        (play_pause_shows_pause : bool) (stats_shown : option TimerStats).

Definition ConnectionStatus (w : World) : string :=
  if isConnected w then "Connected" else "Disconnected".

Definition render (w : World) : View :=
  match timerState w with
  | None => Spinner
  | Some ts =>
      Panel (ConnectionStatus w) (formatTime (time_remaining ts))
            (current_session ts) (is_running ts) (stats w)
  end.

(** ** The event loop *)

Inductive Event :=
| EMount (p : StudyTimerProps)            (* first render: the effect runs *)
| ERender (p : StudyTimerProps)           (* re-render with new props *)
| EUnmount                                (* the cleanup runs *)
| EOpen (h : nat)                         (* socket events, by handle *)
| EMessage (h : nat) (d : MessageData)
| EError (h : nat)
| EClose (h : nat)
| ETimeout (k : nat)                      (* a pending timeout fires *)
| ESettle (id : nat) (p : Settled)        (* a pending request settles *)
| EClickPlayPause
| EClickReset
| EAdvance (dt : N).                      (* time passes *)

(** The event loop invokes a callback; an exception that escapes it is
    reported as an uncaught error. *)
Definition run_callback (c : M unit) (w : World) : World :=
  match c w with
  | (Normal _, w') => w'
  | (Throw e, w') => with_log (log w' ++ [Uncaught e]) w'
  end.

(** The response interceptor of the API client (lib/api.ts, lines 21-27):
    it logs a rejection and passes it on. *)
Definition interceptor (p : Settled) : M unit :=
  match p with
  | Fulfilled _ => skip
  | Rejected _ => console_error "API Error:"
  end.

Definition resume (k : Continuation) (p : Settled) : M unit :=
  match k with
  | after_createTimer uid => initializeTimer_resume uid p
  | after_getTimerState => fetchTimerState_resume p
  | after_getTimerStats => fetchStats_resume p
  | after_startTimer => handleStart_resume p
  | after_pauseTimer => handlePause_resume p
  | after_resetTimer uid => handleReset_resume uid p
  end.

(** What the event loop does when request [id] settles with [p]. *)
Definition settle (k : Continuation) (p : Settled) : M unit :=
  interceptor p ;;; resume k p.

Definition set_readyState (h : nat) (v : ReadyState) (w : World) : World :=
  with_sockets (alter (with_readyState v) h (sockets w)) w.

(** One turn of the event loop.  [None]: the event cannot occur in this
    world (no such socket, timeout not yet due, request already settled,
    button not on screen, ...). *)
Definition step (w : World) (e : Event) : option World :=
  match e with
  | EMount p =>
      match lifecycle w with
      | Fresh =>
          Some (run_callback (effect (userId_of p))
                  (with_lifecycle Mounted (with_props p w)))
      | _ => None
      end
  | ERender p =>
      match lifecycle w with
      | Mounted =>
          if String.eqb (userId_of (props w)) (userId_of p)
          then Some (with_props p w)
          else Some (run_callback (effect (userId_of p))
                       (run_callback cleanup (with_props p w)))
      | _ => None
      end
  | EUnmount =>
      match lifecycle w with
      | Mounted => Some (with_lifecycle Unmounted (run_callback cleanup w))
      | _ => None
      end
  | EOpen h =>
      match sockets w !! h with
      | Some s =>
          match readyState s with
          | CONNECTING => Some (run_callback onopen (set_readyState h OPEN w))
          | _ => None
          end
      | None => None
      end
  | EMessage h d =>
      match sockets w !! h with
      | Some s =>
          match readyState s with
          | OPEN => Some (run_callback (onmessage d) w)
          | _ => None
          end
      | None => None
      end
  | EError h =>
      match sockets w !! h with
      | Some s =>
          match readyState s with
          | CLOSED => None
          | _ => Some (run_callback onerror w)
          end
      | None => None
      end
  | EClose h =>
      match sockets w !! h with
      | Some s =>
          match readyState s with
          | CLOSED => None
          | _ => Some (run_callback (onclose (ws_userId s)) (set_readyState h CLOSED w))
          end
      | None => None
      end
  | ETimeout k =>
      match timeouts w !! k with
      | Some (Some t) =>
          if due t <=? now w
          then Some (run_callback (reconnect (timeout_userId t))
                       (with_timeouts (<[k := None]> (timeouts w)) w))
          else None
      | _ => None
      end
  | ESettle id p =>
      match requests w !! id with
      | Some (Some (_, k)) =>
          Some (run_callback (settle k p)
                  (with_requests (<[id := None]> (requests w)) w))
      | _ => None
      end
  | EClickPlayPause =>
      match lifecycle w, timerState w with
      | Mounted, Some ts =>
          if is_running ts
          then Some (run_callback (handlePause (userId_of (props w))) w)
          else Some (run_callback
                       (handleStart (userId_of (props w)) (currentTopic (props w))) w)
      | _, _ => None
      end
  | EClickReset =>
      match lifecycle w, timerState w with
      | Mounted, Some _ => Some (run_callback (handleReset (userId_of (props w))) w)
      | _, _ => None
      end
  | EAdvance dt => Some (with_now (now w + dt) w)
  end.

Fixpoint run (w : World) (es : list Event) : option World :=
  match es with
  | [] => Some w
  | e :: es' =>
      match step w e with
      | Some w' => run w' es'
      | None => None
      end
  end.

Definition reachable (e : Env) (w : World) : Prop :=
  exists es, run (init e) es = Some w.

(** A computation that leaves the [timerState] cell as it found it. *)
Definition keeps_timerState {A} (c : M A) : Prop :=
  forall w, timerState (c w).2 = timerState w.

(** ** Sample worlds *)

Definition env0 : Env :=
  {| NEXT_PUBLIC_API_URL := None; Notification_permission := Some granted |}.

Definition props0 : StudyTimerProps := {| userId := Some "u1"; currentTopic := None |}.

Definition ts_idle : TimerState :=
  {| is_running := false; is_break := false; current_session := 1;
     time_remaining := 1500; topic := None |}.

Definition ts_running : TimerState :=
  {| is_running := true; is_break := false; current_session := 1;
     time_remaining := 1490; topic := Some "algebra" |}.

Definition ack : Resp.Response :=
  {| Resp.data := Some {| Resp.state := None; Resp.stats := None |} |}.

Definition state_response (ts : TimerState) : Resp.Response :=
  {| Resp.data := Some {| Resp.state := Some ts; Resp.stats := None |} |}.

(** a mounted component whose socket is open; the create request is
    still pending *)
Definition w_open : World :=
  default (init env0) (run (init env0) [EMount props0; EOpen 0]).

(** the same after initialisation has completed and the user has
    pressed the play button: request 3 is the start command *)
Definition w_started : World :=
  default (init env0)
    (run (init env0)
       [EMount props0; EOpen 0; ESettle 0 (Fulfilled ack);
        ESettle 1 (Fulfilled (state_response ts_idle)); EClickPlayPause]).

(** the world three seconds after the socket of [w_open] has closed *)
Definition w_closed : World :=
  default (init env0)
    (run (init env0) [EMount props0; EOpen 0; EClose 0; EAdvance 3000]).

(** Socket [h] is open. *)
Definition is_open (w : World) (h : nat) : Prop :=
  exists s, sockets w !! h = Some s /\ readyState s = OPEN.

(** What [onmessage] shows for the [notification] property of a message. *)
Definition notifications (e : Env) (f : Field string) : list Effect :=
  match truthy_notification f with
  | Some text =>
      ToastSuccess text (Some 5000)
      :: (if may_notify e then [SystemNotification "Study Timer" text] else [])
  | None => []
  end.

(** ** The claims' own notions, written from their words *)

(** [n] copies of the character 0 *)
Fixpoint zeros (n : nat) : string :=
  match n with
  | O => EmptyString
  | S n' => String "0" (zeros n')
  end.

(** "left-padded with '0' to at least [width] characters" *)
Definition zero_padded (width : nat) (s : string) : string :=
  zeros (width - String.length s) +:+ s.

Definition digit_value (c : ascii) : option N :=
  let n := N_of_ascii c in
  if (48 <=? n) && (n <=? 57) then Some (n - 48) else None.

(** The number a string of decimal digits denotes, read left to right. *)
Fixpoint read_digits (acc : N) (s : string) : option N :=
  match s with
  | EmptyString => Some acc
  | String c s' =>
      match digit_value c with
      | Some d => read_digits (10 * acc + d) s'
      | None => None
      end
  end.

Definition read_decimal (s : string) : option N :=
  match s with
  | EmptyString => None
  | _ => read_digits 0 s
  end.

(** A decimal numeral without superfluous leading zeros. *)
Definition canonical_numeral (s : string) : Prop :=
  s = "0" \/ exists c rest, s = String c rest /\ c <> "0"%char.

(** ASCII lower-casing, for comparing URL schemes (which ignore case). *)
Definition lower (c : ascii) : ascii :=
  let n := N_of_ascii c in
  if (65 <=? n) && (n <=? 90) then ascii_of_N (n + 32) else c.

Fixpoint lowercase (s : string) : string :=
  match s with
  | EmptyString => EmptyString
  | String c s' => String (lower c) (lowercase s')
  end.

(** "the base address with its HTTP scheme substituted by the corresponding
    live-connection scheme (http -> ws, https -> wss)"; an address without
    an HTTP scheme has nothing to substitute. *)
Definition scheme_substituted (base : string) : string :=
  if Js.startsWith "https:" (lowercase base) then "wss" +:+ Js.drop_chars 5 base
  else if Js.startsWith "http:" (lowercase base) then "ws" +:+ Js.drop_chars 4 base
  else base.

(** the live connection was opened: a socket was created *)
Definition connection_opened (w : World) : Prop :=
  exists h address, In (WsNew h address) (log w).

(** a create request has not completed yet *)
Definition create_pending (w : World) : Prop :=
  exists id req uid, requests w !! id = Some (Some (req, after_createTimer uid)).

(** the live-connection address the claim describes *)
Definition claimed_ws_address (base userId : string) : string :=
  scheme_substituted base +:+ "/api/timer/ws/" +:+ userId.

(** ** Notions for the connection invariants *)

(** The ref is empty while no socket exists, and otherwise points to the
    socket created last. *)
Definition ref_is_newest (w : World) : Prop :=
  match wsRef w with
  | None => sockets w = []
  | Some h => length (sockets w) = S h
  end.

(** The numeric value of [readyState] (WebSocket.CONNECTING = 0, OPEN = 1,
    CLOSING = 2, CLOSED = 3). *)
Definition ReadyState_code (r : ReadyState) : nat :=
  match r with
  | CONNECTING => 0
  | OPEN => 1
  | CLOSING => 2
  | CLOSED => 3
  end.

(** Socket [s'] is a later state of the socket object [s]. *)
Definition later_state (s s' : WebSocket) : Prop :=
  url s' = url s /\ ws_userId s' = ws_userId s
  /\ (ReadyState_code (readyState s) <= ReadyState_code (readyState s'))%nat.


(** ** Further sample worlds *)

Definition stats0 : TimerStats :=
  {| Stats.sessions_completed := 2; Stats.total_study_minutes := 50;
     Stats.total_break_minutes := 10; Stats.current_topic := None;
     Stats.is_break := false; Stats.time_remaining := "25:00" |}.

Definition stats_response (st : TimerStats) : Resp.Response :=
  {| Resp.data := Some {| Resp.state := None; Resp.stats := Some st |} |}.

(** the create request of [w_open] has been fulfilled: request 1 is the
    state fetch and request 2 the stats fetch, both pending *)
Definition w_created : World :=
  default (init env0)
    (run (init env0) [EMount props0; EOpen 0; ESettle 0 (Fulfilled ack)]).

(** ** The upload form (components/FileUpload.tsx): the selected files *)

Module Upload.

Section Files.

(** A browser [File]; the two functions below only move files around. *)
Variable File : Type.

(** lines 32-41.  [prev] is the list the updater handed to
    [setSelectedFiles] is applied to, the result the list it returns; an
    empty drop returns before it sets anything. *)
Definition onDrop (acceptedFiles prev : list File) : list File :=
  match acceptedFiles with
  | [] => prev
  | _ =>
      let filesToAdd := take 10 acceptedFiles in
      let combined := prev ++ filesToAdd in
      take 10 combined
  end.

(** [array.filter((_, i) => keep(i))], the first element having index [i] *)
Fixpoint filter_index (keep : nat -> bool) (i : nat) (l : list File) : list File :=
  match l with
  | [] => []
  | x :: l' =>
      if keep i then x :: filter_index keep (S i) l' else filter_index keep (S i) l'
  end.

(** lines 43-45: the updater [prev => prev.filter((_, i) => i !== index)] *)
Definition removeFile (index : nat) (prev : list File) : list File :=
  filter_index (fun i => negb (i =? index)%nat) 0 prev.

End Files.

End Upload.

(** * Properties *)

Example mount_log :
  log <$> run (init env0) [EMount props0]
  = Some [HttpSend 0 (ApiClient.createTimer "u1" 25 5 15 4);
          WsNew 0 "ws://localhost:8000/api/timer/ws/u1"].
Proof. reflexivity. Qed.

Example ws_address_default :
  ws_address (API_URL None) "default_user" = "ws://localhost:8000/api/timer/ws/default_user".
Proof. reflexivity. Qed.

(** ** The time formatter *)

Section Formatter.

Lemma string_length_app (s t : string) :
  String.length (s +:+ t) = (String.length s + String.length t)%nat.
Proof. induction s as [|c s IH]; simpl; [reflexivity | now rewrite IH]. Qed.

Lemma length_zeros n : String.length (zeros n) = n.
Proof. induction n; simpl; congruence. Qed.

Lemma filler_zeros n cur :
  cur = "0" \/ cur = EmptyString -> Js.filler n "0" cur = zeros n.
Proof.
  revert cur; induction n as [|n IH]; intros cur Hcur; [reflexivity|].
  destruct Hcur as [-> | ->]; simpl; f_equal; apply IH; auto.
Qed.

(** [padStart] with the one-character filler is zero padding. *)
Lemma padStart_zero width s : Js.padStart width "0" s = zero_padded width s.
Proof.
  unfold Js.padStart, zero_padded.
  destruct (Nat.leb_spec width (String.length s)) as [Hle | Hlt].
  - replace (width - String.length s)%nat with 0%nat by lia. reflexivity.
  - rewrite filler_zeros by auto. reflexivity.
Qed.

Lemma length_zero_padded width s :
  String.length (zero_padded width s) = Nat.max width (String.length s).
Proof. unfold zero_padded. rewrite string_length_app, length_zeros. lia. Qed.

Lemma read_digits_zeros n s : read_digits 0 (zeros n +:+ s) = read_digits 0 s.
Proof. induction n as [|n IH]; [reflexivity | exact IH]. Qed.

Lemma read_decimal_zero_padded width s :
  s <> EmptyString -> read_decimal (zero_padded width s) = read_decimal s.
Proof.
  intros Hs. unfold read_decimal, zero_padded.
  destruct s as [|c s]; [congruence|].
  destruct (zeros (width - String.length (String c s)) +:+ String c s) eqn:E.
  - destruct (width - String.length (String c s))%nat; discriminate E.
  - rewrite <- E. apply read_digits_zeros.
Qed.

(** Reading back Stdlib's digit strings: Horner's rule agrees with
    [Pos.of_uint_acc]. *)
Lemma read_digits_acc d acc :
  read_digits (Npos acc) (NilEmpty.string_of_uint d) = Some (Npos (Pos.of_uint_acc d acc)).
Proof.
  revert acc; induction d; intros acc; simpl; try reflexivity;
    unfold digit_value; simpl;
    match goal with
    | |- read_digits ?a _ = Some (N.pos (Pos.of_uint_acc _ ?b)) =>
        replace a with (Npos b) by lia
    end; apply IHd.
Qed.

Lemma read_digits_uint d :
  read_digits 0 (NilEmpty.string_of_uint d) = Some (Pos.of_uint d).
Proof.
  induction d; simpl; try reflexivity; try exact IHd;
    unfold digit_value; simpl;
    match goal with
    | |- read_digits ?a _ = Some (N.pos (Pos.of_uint_acc _ ?b)) =>
        change a with (Npos b)
    end; apply read_digits_acc.
Qed.

Lemma toString_nonempty n : Js.toString n <> EmptyString.
Proof.
  unfold Js.toString. destruct n as [|p]; [discriminate|].
  simpl. generalize (Pos.to_uint p) as d. intros d.
  destruct d; discriminate.
Qed.

(** [toString] writes the decimal numeral of its argument. *)
Lemma read_decimal_toString n : read_decimal (Js.toString n) = Some n.
Proof.
  pose proof (toString_nonempty n) as Hne.
  unfold read_decimal. destruct (Js.toString n) eqn:E; [congruence|].
  rewrite <- E. unfold Js.toString.
  assert (Hs : NilZero.string_of_uint (N.to_uint n) = NilEmpty.string_of_uint (N.to_uint n)).
  { destruct n as [|p]; [reflexivity|]. simpl.
    destruct (Pos.to_uint p) eqn:Ep; try reflexivity.
    exfalso. revert Ep. apply DecimalPos.Unsigned.to_uint_nonnil. }
  rewrite Hs, read_digits_uint. f_equal. apply DecimalN.Unsigned.of_to.
Qed.

(** ... and it writes no leading zero. *)
Lemma canonical_toString n : canonical_numeral (Js.toString n).
Proof.
  unfold Js.toString, canonical_numeral.
  assert (Hnorm : Decimal.unorm (N.to_uint n) = N.to_uint n).
  { rewrite <- DecimalN.Unsigned.to_of. now rewrite DecimalN.Unsigned.of_to. }
  destruct (N.to_uint n) as [|d|d|d|d|d|d|d|d|d|d];
    [ vm_compute in Hnorm; discriminate Hnorm
    | | right; simpl; eexists _, _; split; [reflexivity | discriminate] .. ].
  unfold Decimal.unorm in Hnorm. simpl in Hnorm.
  destruct (Decimal.nzhead d) eqn:Hnz;
    try (exfalso; apply (DecimalFacts.nzhead_nonzero d d); congruence).
  left. injection Hnorm as <-. reflexivity.
Qed.

Lemma below_60 k : k < 60 -> In k (map N.of_nat (seq 0 60)).
Proof.
  intros Hk. rewrite <- (N2Nat.id k). apply in_map, in_seq. lia.
Qed.

Lemma length_toString_below_60 k :
  k < 60 -> (String.length (Js.toString k) <= 2)%nat.
Proof.
  intros Hk. apply below_60 in Hk.
  assert (F : Forall (fun k => (String.length (Js.toString k) <= 2)%nat)
                (map N.of_nat (seq 0 60))).
  { vm_compute. repeat constructor. }
  rewrite Stdlib.Lists.List.Forall_forall in F. auto.
Qed.

(** Rounding moves a quotient by at most one half. *)
Lemma round_ties_even_near a b :
  b <> 0 ->
  2 * b * Js.round_ties_even a b <= 2 * a + b
  /\ 2 * a <= 2 * b * Js.round_ties_even a b + b.
Proof.
  intros Hb. unfold Js.round_ties_even.
  pose proof (N.div_mod a b Hb) as Hdm.
  pose proof (N.mod_lt a b Hb) as Hlt.
  generalize dependent (a mod b). generalize dependent (a / b). intros q r Hdm Hlt.
  destruct (N.compare_spec (2 * r) b) as [He | Hl | Hg];
    [destruct (N.even q)| |]; subst a; split; lia.
Qed.

(** Below 2^53 a quotient by 60 is below 2^48 ... *)
Lemma quotient_log2_60 s : s < 2 ^ 53 -> (Js.quotient_log2 s 60 <= 47)%Z.
Proof.
  intros Hs. unfold Js.quotient_log2.
  assert (N.log2 s <= 52).
  { destruct (N.eq_dec s 0) as [-> | Hne]; [discriminate|].
    apply N.lt_succ_r. apply N.log2_lt_pow2; [lia | exact Hs]. }
  change (N.log2 60) with 5.
  destruct (_ <=? _); lia.
Qed.

(** ... so the doubles around it are at most 1/32 apart, rounding moves it
    by at most 1/64, and that is less than the 1/60 by which a quotient that
    is not an integer stays below the next integer: the floor of the
    rounded quotient is the floor of the exact one. *)
Lemma floor_divide_60 s : s < 2 ^ 53 -> Js.floor (Js.divide s 60) = s / 60.
Proof.
  intros Hs. unfold Js.divide.
  destruct (N.eqb_spec s 0) as [-> | Hne]; [reflexivity|].
  pose proof (quotient_log2_60 s Hs) as Hq.
  unfold Js.floor. simpl.
  destruct (Z.leb_spec 0 (Js.quotient_log2 s 60 - 52)) as [Hge | Hneg]; [lia|].
  set (k := Z.to_N (- (Js.quotient_log2 s 60 - 52))).
  assert (Hk : 5 <= k) by (unfold k; lia).
  assert (HP : 32 <= 2 ^ k).
  { change 32 with (2 ^ 5). apply N.pow_le_mono_r; [discriminate | exact Hk]. }
  destruct (round_ties_even_near (s * 2 ^ k) 60) as [Hup Hlow]; [discriminate|].
  set (m := Js.round_ties_even (s * 2 ^ k) 60) in *.
  set (P := 2 ^ k) in *.
  assert (Hdm : s = 60 * (s / 60) + s mod 60) by (apply N.div_mod; discriminate).
  assert (Hlt : s mod 60 < 60) by (apply N.mod_lt; discriminate).
  generalize dependent (s mod 60). generalize dependent (s / 60).
  intros q r Hdm Hlt.
  assert (HsP : s * P = 60 * (q * P) + r * P) by (rewrite Hdm at 1; ring).
  assert (HrP : r * P <= 59 * P) by (apply N.mul_le_mono_r; lia).
  rewrite HsP in Hup, Hlow.
  symmetry. apply (N.div_unique m P q (m - q * P)); lia.
Qed.

(** Every integer below 2^53 is held exactly by a double. *)
Lemma is_double_below_2_53 s : s < 2 ^ 53 -> Js.is_double s = true.
Proof.
  intros Hs. unfold Js.is_double.
  destruct (N.eqb_spec s 0) as [-> | Hne]; [reflexivity|].
  assert (Hlog : N.log2 s <= 52).
  { apply N.lt_succ_r. apply N.log2_lt_pow2; [lia | exact Hs]. }
  replace (N.log2 s - 52) with 0 by lia.
  rewrite N.mod_1_r. simpl. rewrite andb_true_r. apply N.leb_le. lia.
Qed.

End Formatter.

(** C10, as the code has it.  For every number of seconds [s] below 2^53,
    the range in which a number holds every natural number exactly,
    [formatTime s] is the decimal numeral of [s / 60], left-padded with 0 to
    at least two characters, a colon, and the decimal numeral of [s mod 60],
    left-padded with 0 to exactly two characters; 1500 gives 25:00 and 0
    gives 00:00. *)
Theorem formatTime_spec (s : N) :
  s < 2 ^ 53 ->
  let mm := zero_padded 2 (Js.toString (s / 60)) in
  let ss := zero_padded 2 (Js.toString (s mod 60)) in
  Js.is_double s = true
  /\ formatTime s = mm +:+ ":" +:+ ss
  /\ read_decimal mm = Some (s / 60)
  /\ read_decimal ss = Some (s mod 60)
  /\ read_decimal (Js.toString (s / 60)) = Some (s / 60)
  /\ read_decimal (Js.toString (s mod 60)) = Some (s mod 60)
  /\ canonical_numeral (Js.toString (s / 60))
  /\ canonical_numeral (Js.toString (s mod 60))
  /\ (2 <= String.length mm)%nat
  /\ String.length ss = 2%nat
  /\ formatTime 1500 = "25:00"
  /\ formatTime 0 = "00:00".
Proof.
  intros Hs. cbv zeta. repeat split.
  - now apply is_double_below_2_53.
  - unfold formatTime. now rewrite floor_divide_60, !padStart_zero.
  - rewrite read_decimal_zero_padded by apply toString_nonempty.
    apply read_decimal_toString.
  - rewrite read_decimal_zero_padded by apply toString_nonempty.
    apply read_decimal_toString.
  - apply read_decimal_toString.
  - apply read_decimal_toString.
  - apply canonical_toString.
  - apply canonical_toString.
  - rewrite length_zero_padded. lia.
  - rewrite length_zero_padded.
    assert (s mod 60 < 60) as Hlt by (apply N.mod_lt; discriminate).
    apply length_toString_below_60 in Hlt. lia.
Qed.

Lemma formatTime_spec_witness :
  1490 < 2 ^ 53
  /\ formatTime 1490 = "24:50"
  /\ read_decimal "24" = Some (1490 / 60)
  /\ read_decimal "50" = Some (1490 mod 60).
Proof.
  assert (Hs : 1490 < 2 ^ 53) by reflexivity.
  split; [exact Hs|].
  destruct (formatTime_spec 1490 Hs) as (_ & Hfmt & Hmm & Hss & _).
  split; [rewrite Hfmt; reflexivity|].
  split; [exact Hmm | exact Hss].
Defined.

(** C10 does not hold for every natural number of seconds.  The quotient
    [seconds / 60] is rounded to the nearest double before
    [Math.floor] sees it.  67553994410557496 is 8444249301319687 * 2^3, a
    double; its quotient by 60 is 1125899906842624 + 56/60, the doubles at
    that size are 1/4 apart, and the nearest one is 1125899906842625: the
    minutes printed are one more than [s / 60]. *)
Lemma formatTime_rounded_quotient :
  let s := 67553994410557496 in
  Js.is_double s = true
  /\ s / 60 = 1125899906842624
  /\ s mod 60 = 56
  /\ Js.divide s 60 = {| Js.mantissa := 4503599627370500; Js.exponent := -2 |}
  /\ formatTime s = "1125899906842625:56"
  /\ zero_padded 2 (Js.toString (s / 60)) +:+ ":" +:+ zero_padded 2 (Js.toString (s mod 60))
     = "1125899906842624:56"
  /\ formatTime s
     <> zero_padded 2 (Js.toString (s / 60)) +:+ ":" +:+ zero_padded 2 (Js.toString (s mod 60))
  /\ ~ (forall n, Js.is_double n = true ->
           formatTime n
           = zero_padded 2 (Js.toString (n / 60)) +:+ ":"
             +:+ zero_padded 2 (Js.toString (n mod 60))).
Proof.
  assert (Hd : Js.is_double 67553994410557496 = true) by (vm_compute; reflexivity).
  assert (Hf : formatTime 67553994410557496 = "1125899906842625:56")
    by (vm_compute; reflexivity).
  assert (Hc : zero_padded 2 (Js.toString (67553994410557496 / 60)) +:+ ":"
               +:+ zero_padded 2 (Js.toString (67553994410557496 mod 60))
               = "1125899906842624:56") by (vm_compute; reflexivity).
  cbv zeta. split; [exact Hd|].
  split; [vm_compute; reflexivity|]. split; [vm_compute; reflexivity|].
  split; [vm_compute; reflexivity|]. split; [exact Hf|]. split; [exact Hc|].
  split.
  - rewrite Hf, Hc. discriminate.
  - intros H. specialize (H _ Hd). rewrite Hf, Hc in H. discriminate H.
Qed.

(** ** The live-connection address *)

(** C9, as the code has it.  For a base address that begins with the
    lower-case scheme [http://] or [https://], the live-connection address is
    the base address with the scheme replaced by [ws://], respectively
    [wss://], followed by [/api/timer/ws/] and the identity key; this is the
    address the claim describes. *)
Theorem ws_address_lowercase_scheme (rest userId : string) :
  ws_address ("http://" +:+ rest) userId = "ws://" +:+ rest +:+ "/api/timer/ws/" +:+ userId
  /\ ws_address ("https://" +:+ rest) userId = "wss://" +:+ rest +:+ "/api/timer/ws/" +:+ userId
  /\ ws_address ("http://" +:+ rest) userId = claimed_ws_address ("http://" +:+ rest) userId
  /\ ws_address ("https://" +:+ rest) userId = claimed_ws_address ("https://" +:+ rest) userId.
Proof. repeat split; reflexivity. Qed.

(** C9 does not hold for every base address: the replacement is of the
    first [http] found anywhere, in lower case only.  For the base address
    [HTTP://myhttp.example.com] the scheme is kept and the host name is
    rewritten, so the address is neither the one the claim describes nor
    the base address with the path appended. *)
Lemma ws_address_uppercase_scheme :
  ws_address "HTTP://myhttp.example.com" "u1" = "HTTP://myws.example.com/api/timer/ws/u1"
  /\ claimed_ws_address "HTTP://myhttp.example.com" "u1" = "ws://myhttp.example.com/api/timer/ws/u1"
  /\ ws_address "HTTP://myhttp.example.com" "u1" <> claimed_ws_address "HTTP://myhttp.example.com" "u1"
  /\ ~ (forall base userId, ws_address base userId = claimed_ws_address base userId).
Proof.
  repeat split; try reflexivity; try discriminate.
  intros H. specialize (H "HTTP://myhttp.example.com" "u1"). discriminate H.
Qed.

(** ** Inbound push messages *)

Section Push_messages.

(** The whole effect of the message handler on a well-formed message. *)
Lemma onmessage_Json (m : Push.Message) (w : World) :
  run_callback (onmessage (Json m)) w
  = with_log (log w ++ notifications (env w) (Push.notification m))
      (with_timerState (Push.state m) w).
Proof.
  unfold run_callback, onmessage, notifications, bind, JSON_parse, ret, setTimerState,
    modify, toast_success, emit, gets, skip.
  simpl.
  destruct (truthy_notification (Push.notification m)) as [text|]; simpl.
  - destruct (may_notify (env w)); simpl.
    + unfold with_log, with_timerState; simpl. now rewrite <- app_assoc.
    + reflexivity.
  - unfold with_log, with_timerState; simpl. now rewrite app_nil_r.
Qed.

Lemma step_message (w : World) (h : nat) (m : Push.Message) :
  is_open w h ->
  step w (EMessage h (Json m)) = Some (run_callback (onmessage (Json m)) w).
Proof. intros (s & Hs & Hopen). simpl. now rewrite Hs, Hopen. Qed.

End Push_messages.

(** C1.  Take any world and any non-empty sequence of push messages, each
    arriving on a socket that is open.  The event loop processes the whole
    sequence, and the cached TimerState is then the [state] of the last
    message, whatever was cached before and whatever the earlier messages
    carried. *)
Theorem last_push_wins (w : World) (pushes : list (nat * Push.Message))
    (h : nat) (m : Push.Message) :
  Forall (fun hm => is_open w hm.1) pushes ->
  last pushes = Some (h, m) ->
  exists w', run w (map (fun hm => EMessage hm.1 (Json hm.2)) pushes) = Some w'
             /\ timerState w' = Push.state m.
Proof.
  revert w. induction pushes as [|[h0 m0] rest IH]; intros w Hopen Hlast.
  - discriminate Hlast.
  - apply Forall_cons in Hopen as [Hopen0 Hrest]. simpl in Hopen0.
    cbn [map run fst snd]. rewrite (step_message w h0 m0 Hopen0).
    destruct rest as [|hm rest'].
    + injection Hlast as -> ->. eexists; split; [reflexivity|].
      now rewrite onmessage_Json.
    + apply IH.
      * eapply Forall_impl; [exact Hrest|]. intros [h1 m1] H1. simpl in *.
        rewrite onmessage_Json. exact H1.
      * exact Hlast.
Qed.

Lemma last_push_wins_witness :
  Forall (fun hm => is_open w_open hm.1)
    [(0%nat, {| Push.state := Some ts_idle; Push.notification := Absent |});
     (0%nat, {| Push.state := Some ts_running; Push.notification := Null |})]
  /\ last [(0%nat, {| Push.state := Some ts_idle; Push.notification := Absent |});
           (0%nat, {| Push.state := Some ts_running; Push.notification := Null |})]
     = Some (0%nat, {| Push.state := Some ts_running; Push.notification := Null |})
  /\ exists w',
       run w_open
         (map (fun hm => EMessage hm.1 (Json hm.2))
            [(0%nat, {| Push.state := Some ts_idle; Push.notification := Absent |});
             (0%nat, {| Push.state := Some ts_running; Push.notification := Null |})])
       = Some w'
       /\ timerState w' = Some ts_running.
Proof.
  assert (Hopen : Forall (fun hm : nat * Push.Message => is_open w_open hm.1)
            [(0%nat, {| Push.state := Some ts_idle; Push.notification := Absent |});
             (0%nat, {| Push.state := Some ts_running; Push.notification := Null |})]).
  { repeat constructor; eexists; split; reflexivity. }
  split; [exact Hopen|]. split; [reflexivity|].
  exact (last_push_wins w_open _ 0%nat
           {| Push.state := Some ts_running; Push.notification := Null |}
           Hopen eq_refl).
Defined.

(** C8, as the code has it.  A push message arrives on an open socket.  If
    its [notification] is a non-empty string, the handler shows one toast
    with exactly that text (for 5000 ms) and, when [Notification.permission]
    is granted, one system notification titled Study Timer with the same
    text as body, and nothing else.  If [notification] is absent, null or
    the empty string, the handler shows nothing.  In both cases the cached
    state is replaced by the message's [state]. *)
Theorem push_notification (w : World) (h : nat) (m : Push.Message) :
  is_open w h ->
  exists w', step w (EMessage h (Json m)) = Some w'
    /\ timerState w' = Push.state m
    /\ (forall text, Push.notification m = Present text -> text <> EmptyString ->
          (Notification_permission (env w) = Some granted ->
             log w' = log w ++ [ToastSuccess text (Some 5000);
                                SystemNotification "Study Timer" text])
          /\ (Notification_permission (env w) <> Some granted ->
             log w' = log w ++ [ToastSuccess text (Some 5000)]))
    /\ (Push.notification m = Absent \/ Push.notification m = Null
        \/ Push.notification m = Present EmptyString ->
          log w' = log w).
Proof.
  intros Hopen. rewrite (step_message w h m Hopen). eexists; split; [reflexivity|].
  rewrite onmessage_Json. split; [reflexivity|]. split.
  - intros text Hm Hne. unfold notifications. rewrite Hm. simpl.
    destruct text as [|c text]; [congruence|]. simpl. unfold may_notify. split.
    + intros ->. reflexivity.
    + intros Hperm. destruct (Notification_permission (env w)) as [[]|]; congruence.
  - unfold notifications.
    intros [-> | [-> | ->]]; simpl; now rewrite app_nil_r.
Qed.

Lemma push_notification_witness :
  is_open w_open 0
  /\ exists w',
      step w_open
        (EMessage 0 (Json {| Push.state := Some ts_idle;
                             Push.notification := Present "Break time!" |})) = Some w'
      /\ timerState w' = Some ts_idle
      /\ log w' = log w_open ++ [ToastSuccess "Break time!" (Some 5000);
                                 SystemNotification "Study Timer" "Break time!"].
Proof.
  assert (Hopen : is_open w_open 0) by (eexists; split; reflexivity).
  split; [exact Hopen|].
  destruct (push_notification w_open 0
              {| Push.state := Some ts_idle; Push.notification := Present "Break time!" |}
              Hopen) as (w' & Hstep & Hts & Hshown & _).
  exists w'. split; [exact Hstep|]. split; [exact Hts|].
  apply (Hshown "Break time!" eq_refl); [discriminate | reflexivity].
Defined.

(** C8 does not hold for every message whose [notification] is present: the
    handler tests the property for truthiness, and the empty string is
    falsy.  A message that carries the empty string as notification is
    processed without any toast or system notification. *)
Lemma push_empty_notification_is_silent :
  exists w',
    step w_open
      (EMessage 0 (Json {| Push.state := Some ts_idle;
                           Push.notification := Present EmptyString |})) = Some w'
    /\ Notification_permission (env w_open) = Some granted
    /\ log w' = log w_open
    /\ ~ (forall (w : World) (h : nat) (m : Push.Message) (text : string),
            is_open w h -> Push.notification m = Present text ->
            exists w1 d, step w (EMessage h (Json m)) = Some w1
                         /\ In (ToastSuccess text d) (log w1)).
Proof.
  eexists. split; [vm_compute; reflexivity|].
  split; [vm_compute; reflexivity|]. split; [vm_compute; reflexivity|].
  intros Hclaim.
  destruct (Hclaim w_open 0%nat
              {| Push.state := Some ts_idle; Push.notification := Present EmptyString |}
              EmptyString) as (w1 & d & Hstep & Hin).
  - eexists; split; vm_compute; reflexivity.
  - reflexivity.
  - vm_compute in Hstep. injection Hstep as <-.
    vm_compute in Hin. destruct Hin as [H|[H|[H|[]]]]; discriminate H.
Qed.

(** ** What can change the cached TimerState *)

Create HintDb frame discriminated.

Section Frame.

Lemma keeps_ret {A} (a : A) : keeps_timerState (ret a).
Proof. intros w. reflexivity. Qed.

Lemma keeps_throw {A} (e : string) : keeps_timerState (@throw A e).
Proof. intros w. reflexivity. Qed.

Lemma keeps_gets {A} (f : World -> A) : keeps_timerState (gets f).
Proof. intros w. reflexivity. Qed.

Lemma keeps_bind {A B} (c : M A) (f : A -> M B) :
  keeps_timerState c -> (forall a, keeps_timerState (f a)) -> keeps_timerState (bind c f).
Proof.
  intros Hc Hf w. unfold bind. specialize (Hc w).
  destruct (c w) as [[a|e] w1]; simpl in *; [|exact Hc].
  now rewrite Hf.
Qed.

Lemma keeps_try_catch {A} (body : M A) (handler : string -> M A) :
  keeps_timerState body -> (forall e, keeps_timerState (handler e)) ->
  keeps_timerState (try_catch body handler).
Proof.
  intros Hb Hh w. unfold try_catch. specialize (Hb w).
  destruct (body w) as [[a|e] w1]; simpl in *; [exact Hb|].
  now rewrite Hh.
Qed.

Lemma keeps_modify (f : World -> World) :
  (forall w, timerState (f w) = timerState w) -> keeps_timerState (modify f).
Proof. intros Hf w. apply Hf. Qed.

Lemma keeps_emit (e : Effect) : keeps_timerState (emit e).
Proof. intros w. reflexivity. Qed.

Lemma keeps_call (req : Request) (k : Continuation) : keeps_timerState (call req k).
Proof. intros w. reflexivity. Qed.

Lemma keeps_setTimeout (uid : string) (ms : N) : keeps_timerState (setTimeout uid ms).
Proof. intros w. reflexivity. Qed.

Lemma keeps_new_WebSocket (a uid : string) : keeps_timerState (new_WebSocket a uid).
Proof. intros w. reflexivity. Qed.

Lemma keeps_WebSocket_close (h : nat) : keeps_timerState (WebSocket_close h).
Proof.
  intros w. unfold WebSocket_close.
  destruct (sockets w !! h) as [s|]; [|reflexivity].
  destruct (readyState s); reflexivity.
Qed.

Lemma keeps_await (p : Settled) : keeps_timerState (await p).
Proof. destruct p; intros w; reflexivity. Qed.

Lemma keeps_response_data (r : Resp.Response) : keeps_timerState (response_data r).
Proof. unfold response_data. destruct (Resp.data r); intros w; reflexivity. Qed.

Lemma keeps_interceptor (p : Settled) : keeps_timerState (interceptor p).
Proof. destruct p; intros w; reflexivity. Qed.

Hint Resolve keeps_ret keeps_throw keeps_gets keeps_bind keeps_try_catch keeps_emit
  keeps_call keeps_setTimeout keeps_new_WebSocket keeps_WebSocket_close keeps_await
  keeps_response_data keeps_interceptor : frame.

Ltac frame :=
  unfold console_log, console_error, toast_success, toast_error, skip,
    setStats, setIsConnected;
  repeat first
    [ apply keeps_bind; [|intros ?]
    | apply keeps_try_catch; [|intros ?]
    | apply keeps_modify; intros ?; reflexivity
    | solve [auto with frame] ].

Lemma keeps_connectWebSocket uid : keeps_timerState (connectWebSocket uid).
Proof. unfold connectWebSocket. frame. Qed.

Lemma keeps_reconnect uid : keeps_timerState (reconnect uid).
Proof.
  unfold reconnect. apply keeps_bind; [frame|]. intros [s|]; [|frame].
  destruct (ReadyState_eqb (readyState s) CLOSED); [apply keeps_connectWebSocket | frame].
Qed.

Lemma keeps_onopen : keeps_timerState onopen.
Proof. unfold onopen. frame. Qed.

Lemma keeps_onerror : keeps_timerState onerror.
Proof. unfold onerror. frame. Qed.

Lemma keeps_onclose uid : keeps_timerState (onclose uid).
Proof. unfold onclose. frame. Qed.

Lemma keeps_effect uid : keeps_timerState (effect uid).
Proof.
  unfold effect, initializeTimer. apply keeps_bind; [frame|].
  intros _. apply keeps_connectWebSocket.
Qed.

Lemma keeps_cleanup : keeps_timerState cleanup.
Proof. unfold cleanup. apply keeps_bind; [frame|]. intros [h|]; frame. Qed.

Lemma keeps_fetchStats uid : keeps_timerState (fetchStats uid).
Proof. unfold fetchStats. frame. Qed.

Lemma keeps_fetchTimerState uid : keeps_timerState (fetchTimerState uid).
Proof. unfold fetchTimerState. frame. Qed.

(** Invoking a command sends its request and touches nothing else. *)
Lemma keeps_invoke c uid : keeps_timerState (invoke c uid).
Proof. destruct c; unfold invoke, handleStart, handlePause, handleReset; frame. Qed.

(** Every continuation but the one of [fetchTimerState] keeps the cell. *)
Lemma keeps_resume k p : k <> after_getTimerState -> keeps_timerState (resume k p).
Proof.
  intros Hk. pose proof keeps_fetchStats. pose proof keeps_fetchTimerState.
  destruct k; try congruence;
    unfold resume, initializeTimer_resume, fetchStats_resume, handleStart_resume,
      handlePause_resume, handleReset_resume; frame.
Qed.

(** A failed fetch of the state keeps the cell as well. *)
Lemma keeps_fetchTimerState_rejected error :
  keeps_timerState (fetchTimerState_resume (Rejected error)).
Proof. intros w. reflexivity. Qed.

Lemma keeps_settle k p : k <> after_getTimerState -> keeps_timerState (settle k p).
Proof. intros Hk. unfold settle. apply keeps_bind; [frame|]. intros _. now apply keeps_resume. Qed.

Lemma keeps_run_callback (c : M unit) :
  keeps_timerState c -> forall w, timerState (run_callback c w) = timerState w.
Proof.
  intros Hc w. unfold run_callback. specialize (Hc w).
  destruct (c w) as [[u|e] w1]; exact Hc.
Qed.

End Frame.

(** No event other than a push message or the response to the state fetch
    changes the cached TimerState. *)
Lemma timerState_changed_by (w w' : World) (e : Event) :
  step w e = Some w' ->
  timerState w' <> timerState w ->
  (exists h d, e = EMessage h d)
  \/ (exists id response req,
        e = ESettle id (Fulfilled response)
        /\ requests w !! id = Some (Some (req, after_getTimerState))).
Proof.
  intros Hstep Hne.
  destruct e as [p|p| |h|h d|h|h|k|id p| | |dt]; simpl in Hstep;
    try (left; eauto; fail);
    try (destruct (requests w !! id) as [[[req k]|]|] eqn:Hreq; try discriminate;
         destruct (decide (k = after_getTimerState)) as [-> | Hk];
         [destruct p as [response|error]; [right; eauto|] |]);
    exfalso; apply Hne; clear Hne.
  - destruct (lifecycle w); inversion Hstep; subst.
    now rewrite keeps_run_callback by apply keeps_effect.
  - destruct (lifecycle w); try discriminate.
    destruct (String.eqb _ _); inversion Hstep; subst; [reflexivity|].
    rewrite keeps_run_callback by apply keeps_effect.
    now rewrite keeps_run_callback by apply keeps_cleanup.
  - destruct (lifecycle w); inversion Hstep; subst. simpl.
    now rewrite keeps_run_callback by apply keeps_cleanup.
  - destruct (sockets w !! h) as [s|]; [|discriminate].
    destruct (readyState s); inversion Hstep; subst.
    now rewrite keeps_run_callback by apply keeps_onopen.
  - destruct (sockets w !! h) as [s|]; [|discriminate].
    destruct (readyState s); inversion Hstep; subst;
      now rewrite keeps_run_callback by apply keeps_onerror.
  - destruct (sockets w !! h) as [s|]; [|discriminate].
    destruct (readyState s); inversion Hstep; subst;
      now rewrite keeps_run_callback by apply keeps_onclose.
  - destruct (timeouts w !! k) as [[t|]|]; try discriminate.
    destruct (due t <=? now w); inversion Hstep; subst.
    now rewrite keeps_run_callback by apply keeps_reconnect.
  - inversion Hstep; subst.
    rewrite keeps_run_callback; [reflexivity|].
    unfold settle. apply keeps_bind; [apply keeps_interceptor|].
    intros _. apply keeps_fetchTimerState_rejected.
  - inversion Hstep; subst.
    now rewrite keeps_run_callback by now apply keeps_settle.
  - destruct (lifecycle w); try discriminate.
    destruct (timerState w) as [ts|] eqn:Ets; try discriminate.
    destruct (is_running ts); inversion Hstep; subst;
      rewrite keeps_run_callback; auto;
      [apply (keeps_invoke pause) | apply (keeps_invoke (start _))].
  - destruct (lifecycle w); try discriminate.
    destruct (timerState w) as [ts|] eqn:Ets; try discriminate.
    inversion Hstep; subst. rewrite keeps_run_callback; auto.
    apply (keeps_invoke reset).
  - inversion Hstep; subst. reflexivity.
Qed.

(** ** Command operations *)

(** C5.  For every command (start with an optional topic, pause, reset),
    every world and so every cached TimerState: the handler returns normally
    having done nothing but send its request, the cached TimerState is what
    it was, and it still is after the continuation of the handler has run
    on the response or on the rejection.  The same holds for the two
    buttons whenever they are on screen. *)
Theorem command_keeps_timerState (w : World) (c : Command) (uid : string) (p : Settled) :
  completion (invoke c uid) w = Normal tt
  /\ timerState (exec (invoke c uid) w) = timerState w
  /\ requests (exec (invoke c uid) w)
     = requests w ++ [Some (request_of c uid, continuation_of c uid)]
  /\ log (exec (invoke c uid) w)
     = log w ++ [HttpSend (length (requests w)) (request_of c uid)]
  /\ timerState (run_callback (settle (continuation_of c uid) p) w) = timerState w
  /\ (step w EClickPlayPause = None
      \/ exists w', step w EClickPlayPause = Some w' /\ timerState w' = timerState w)
  /\ (step w EClickReset = None
      \/ exists w', step w EClickReset = Some w' /\ timerState w' = timerState w).
Proof.
  split; [destruct c; reflexivity|]. split; [apply keeps_invoke|].
  split; [destruct c; reflexivity|]. split; [destruct c; reflexivity|]. split.
  { apply keeps_run_callback, keeps_settle. destruct c; discriminate. }
  split.
  - destruct (step w EClickPlayPause) as [w'|] eqn:Hstep; [right | now left].
    exists w'. split; [reflexivity|].
    destruct (decide (timerState w' = timerState w)) as [Heq | Hne]; [exact Heq|].
    destruct (timerState_changed_by _ _ _ Hstep Hne) as [(h & d & [=]) | (id & r & req & [=] & _)].
  - destruct (step w EClickReset) as [w'|] eqn:Hstep; [right | now left].
    exists w'. split; [reflexivity|].
    destruct (decide (timerState w' = timerState w)) as [Heq | Hne]; [exact Heq|].
    destruct (timerState_changed_by _ _ _ Hstep Hne) as [(h & d & [=]) | (id & r & req & [=] & _)].
Qed.

(** C6.  When the request of a command is rejected, the event loop runs the
    continuation of its handler, which shows the failure toast of that
    command (after the API client has logged the error to the console);
    the cached TimerState and the other cells are left as they were, no
    request is sent again, and no exception escapes the handler. *)
Theorem command_failure (w : World) (c : Command) (uid error : string)
    (id : nat) (req : Request) :
  requests w !! id = Some (Some (req, continuation_of c uid)) ->
  exists w', step w (ESettle id (Rejected error)) = Some w'
    /\ timerState w' = timerState w
    /\ stats w' = stats w
    /\ log w' = log w ++ [ConsoleError "API Error:"; ToastError (failure_toast c)]
    /\ requests w' = <[id := None]> (requests w)
    /\ completion (settle (continuation_of c uid) (Rejected error))
         (with_requests (<[id := None]> (requests w)) w) = Normal tt.
Proof.
  intros Hreq. simpl. rewrite Hreq. eexists. split; [reflexivity|].
  destruct c; simpl; unfold with_log; simpl; rewrite <- ?app_assoc; auto 10.
Qed.

Lemma command_failure_witness :
  requests w_started !! 3%nat
  = Some (Some (ApiClient.startTimer "u1" None, continuation_of (start None) "u1"))
  /\ exists w', step w_started (ESettle 3 (Rejected "Network Error")) = Some w'
       /\ timerState w' = Some ts_idle
       /\ log w' = log w_started ++ [ConsoleError "API Error:";
                                     ToastError "Failed to start timer"].
Proof.
  assert (Hreq : requests w_started !! 3%nat
                 = Some (Some (ApiClient.startTimer "u1" None,
                               continuation_of (start None) "u1")))
    by (vm_compute; reflexivity).
  split; [exact Hreq|].
  destruct (command_failure w_started (start None) "u1" "Network Error" 3
              (ApiClient.startTimer "u1" None) Hreq)
    as (w' & Hstep & Hts & _ & Hlog & _).
  exists w'. split; [exact Hstep|]. split; [|exact Hlog].
  rewrite Hts. vm_compute. reflexivity.
Defined.

(** ** The client is a passive renderer *)

(** C7.  In every world the client can reach, an event changes the cached
    TimerState (and with it [time_remaining]) only if it is an inbound
    message of the live connection or the response to the fetch of the
    state.  In particular a timeout that fires and the passing of time
    leave it as it was: the component never counts down by itself. *)
Theorem client_never_advances_time (e : Env) (w w' : World) (ev : Event) :
  reachable e w ->
  step w ev = Some w' ->
  (timerState w' <> timerState w ->
     (exists h d, ev = EMessage h d)
     \/ (exists id response req,
           ev = ESettle id (Fulfilled response)
           /\ requests w !! id = Some (Some (req, after_getTimerState))))
  /\ match ev with
     | ETimeout _ | EAdvance _ => timerState w' = timerState w /\ render w' = render w
     | _ => True
     end.
Proof.
  intros _ Hstep. split; [now apply timerState_changed_by|].
  destruct ev; try exact I.
  - assert (Hts : timerState w' = timerState w).
    { destruct (decide (timerState w' = timerState w)) as [Heq | Hne]; [exact Heq|].
      destruct (timerState_changed_by _ _ _ Hstep Hne)
        as [(h & d & [=]) | (id & r & req & [=] & _)]. }
    split; [exact Hts|].
    simpl in Hstep. destruct (timeouts w !! k) as [[t|]|]; try discriminate.
    destruct (due t <=? now w); inversion Hstep; subst.
    unfold run_callback, reconnect, bind, gets, current_socket; simpl.
    destruct (wsRef w) as [h|]; [|reflexivity].
    destruct (sockets w !! h) as [s|]; [|reflexivity].
    destruct (ReadyState_eqb (readyState s) CLOSED); reflexivity.
  - simpl in Hstep. inversion Hstep; subst. split; reflexivity.
Qed.

Lemma client_never_advances_time_witness :
  reachable env0 w_open
  /\ exists w',
       step w_open (EMessage 0 (Json {| Push.state := Some ts_running;
                                        Push.notification := Absent |})) = Some w'
       /\ timerState w' <> timerState w_open
       /\ ((exists h d, EMessage 0 (Json {| Push.state := Some ts_running;
                                            Push.notification := Absent |}) = EMessage h d)
           \/ (exists id response req,
                 EMessage 0 (Json {| Push.state := Some ts_running;
                                     Push.notification := Absent |})
                 = ESettle id (Fulfilled response)
                 /\ requests w_open !! id = Some (Some (req, after_getTimerState)))).
Proof.
  assert (Hrun : reachable env0 w_open)
    by (exists [EMount props0; EOpen 0]; vm_compute; reflexivity).
  split; [exact Hrun|].
  eexists. split; [vm_compute; reflexivity|].
  split; [vm_compute; discriminate|].
  refine (proj1 (client_never_advances_time env0 w_open _
                   (EMessage 0 (Json {| Push.state := Some ts_running;
                                        Push.notification := Absent |}))
                   Hrun _) _).
  - vm_compute. reflexivity.
  - vm_compute. discriminate.
Defined.

(** ** Close and reconnect *)

Section Reconnect.

(** The world after a close event, field by field. *)
Lemma step_close (w : World) (h : nat) (s : WebSocket) :
  sockets w !! h = Some s ->
  readyState s <> CLOSED ->
  exists w', step w (EClose h) = Some w'
    /\ (env w' = env w /\ now w' = now w /\ lifecycle w' = lifecycle w
        /\ props w' = props w /\ timerState w' = timerState w /\ stats w' = stats w
        /\ requests w' = requests w /\ wsRef w' = wsRef w)
    /\ isConnected w' = false
    /\ sockets w' = alter (with_readyState CLOSED) h (sockets w)
    /\ timeouts w' = timeouts w ++ [Some {| due := now w + 3000; delay := 3000;
                                            timeout_userId := ws_userId s |}]
    /\ log w' = log w ++ [ConsoleLog "WebSocket disconnected";
                          SetTimeout (length (timeouts w)) 3000].
Proof.
  intros Hs Hlive.
  assert (Hstep : step w (EClose h)
                  = Some (run_callback (onclose (ws_userId s)) (set_readyState h CLOSED w))).
  { simpl. rewrite Hs. destruct (readyState s); congruence. }
  rewrite Hstep. eexists. split; [reflexivity|]. simpl.
  unfold with_log; simpl. rewrite <- app_assoc. auto 20.
Qed.

(** The world after a due timeout has fired, field by field. *)
Lemma step_timeout (w : World) (k : nat) (t : Timeout) :
  timeouts w !! k = Some (Some t) ->
  due t <= now w ->
  exists w', step w (ETimeout k) = Some w'
    /\ (env w' = env w /\ now w' = now w /\ lifecycle w' = lifecycle w
        /\ props w' = props w /\ timerState w' = timerState w /\ stats w' = stats w
        /\ requests w' = requests w /\ isConnected w' = isConnected w)
    /\ timeouts w' = <[k := None]> (timeouts w)
    /\ (forall cur, current_socket w = Some cur -> readyState cur = CLOSED ->
          sockets w'
          = sockets w ++ [{| url := ws_address (API_URL (NEXT_PUBLIC_API_URL (env w)))
                                     (timeout_userId t);
                             readyState := CONNECTING;
                             ws_userId := timeout_userId t |}]
          /\ wsRef w' = Some (length (sockets w))
          /\ log w' = log w ++ [WsNew (length (sockets w))
                                  (ws_address (API_URL (NEXT_PUBLIC_API_URL (env w)))
                                     (timeout_userId t))])
    /\ (current_socket w = None
        \/ (exists cur, current_socket w = Some cur /\ readyState cur <> CLOSED) ->
          w' = with_timeouts (<[k := None]> (timeouts w)) w).
Proof.
  intros Ht Hdue. simpl. rewrite Ht. apply N.leb_le in Hdue. rewrite Hdue.
  eexists. split; [reflexivity|].
  unfold run_callback, reconnect, bind, gets. simpl.
  change (current_socket (with_timeouts (<[k:=None]> (timeouts w)) w))
    with (current_socket w).
  destruct (current_socket w) as [cur|] eqn:Hcur.
  - destruct (readyState cur) eqn:Hrs; simpl;
      (split; [auto 10|]); (split; [reflexivity|]); split;
      try (intros cur' [= <-] Hc; congruence);
      try (intros _; reflexivity).
    + intros cur' [= <-] _. auto.
    + intros [[=] | (cur' & [= <-] & Hc)]. congruence.
  - simpl. split; [auto 10|]. split; [reflexivity|].
    split; [intros cur [=]|]. intros _. reflexivity.
Qed.

End Reconnect.

(** C4.  A close event on a socket [h] that is not yet closed: the status
    shown becomes Disconnected and exactly one timeout is added, due 3000 ms
    from now; no socket is created at that point.  A due timeout [k] that
    fires: it is consumed; when the socket the ref points to is CLOSED, one
    new socket is created (in state CONNECTING, at the address of the
    captured identity key) and the ref is pointed at it; when the ref points
    to no socket or to one that is not CLOSED, nothing else changes. *)
Theorem close_schedules_one_reconnect (w : World) (h : nat) (s : WebSocket)
    (w2 : World) (k : nat) (t : Timeout) :
  sockets w !! h = Some s ->
  readyState s <> CLOSED ->
  timeouts w2 !! k = Some (Some t) ->
  due t <= now w2 ->
  (exists w', step w (EClose h) = Some w'
     /\ isConnected w' = false
     /\ ConnectionStatus w' = "Disconnected"
     /\ timeouts w' = timeouts w ++ [Some {| due := now w + 3000; delay := 3000;
                                             timeout_userId := ws_userId s |}]
     /\ sockets w' !! h = Some (with_readyState CLOSED s)
     /\ length (sockets w') = length (sockets w)
     /\ wsRef w' = wsRef w
     /\ log w' = log w ++ [ConsoleLog "WebSocket disconnected";
                           SetTimeout (length (timeouts w)) 3000])
  /\ (exists w2', step w2 (ETimeout k) = Some w2'
        /\ timeouts w2' = <[k := None]> (timeouts w2)
        /\ (forall cur, current_socket w2 = Some cur -> readyState cur = CLOSED ->
              sockets w2'
              = sockets w2 ++ [{| url := ws_address (API_URL (NEXT_PUBLIC_API_URL (env w2)))
                                           (timeout_userId t);
                                  readyState := CONNECTING;
                                  ws_userId := timeout_userId t |}]
              /\ wsRef w2' = Some (length (sockets w2))
              /\ log w2' = log w2 ++ [WsNew (length (sockets w2))
                                        (ws_address (API_URL (NEXT_PUBLIC_API_URL (env w2)))
                                           (timeout_userId t))])
        /\ (current_socket w2 = None
            \/ (exists cur, current_socket w2 = Some cur /\ readyState cur <> CLOSED) ->
              w2' = with_timeouts (<[k := None]> (timeouts w2)) w2)).
Proof.
  intros Hs Hlive Ht Hdue. split.
  - destruct (step_close w h s Hs Hlive)
      as (w' & Hstep & (_ & _ & _ & _ & _ & _ & _ & Href) & Hconn & Hsock & Htime & Hlog).
    exists w'. split; [exact Hstep|]. split; [exact Hconn|].
    split; [unfold ConnectionStatus; now rewrite Hconn|]. split; [exact Htime|].
    rewrite Hsock, list_lookup_alter_eq, Hs, length_alter. auto.
  - destruct (step_timeout w2 k t Ht Hdue) as (w2' & Hstep & _ & Htime & Hopen & Hnoop).
    exists w2'. auto.
Qed.

Lemma close_schedules_one_reconnect_witness :
  sockets w_open !! 0%nat
  = Some {| url := "ws://localhost:8000/api/timer/ws/u1"; readyState := OPEN;
            ws_userId := "u1" |}
  /\ OPEN <> CLOSED
  /\ timeouts w_closed !! 0%nat
     = Some (Some {| due := 3000; delay := 3000; timeout_userId := "u1" |})
  /\ 3000 <= now w_closed
  /\ (exists w', step w_open (EClose 0) = Some w'
        /\ ConnectionStatus w' = "Disconnected"
        /\ timeouts w' = [Some {| due := 3000; delay := 3000; timeout_userId := "u1" |}])
  /\ (exists w2', step w_closed (ETimeout 0) = Some w2'
        /\ wsRef w2' = Some 1%nat
        /\ length (sockets w2') = 2%nat).
Proof.
  assert (H1 : sockets w_open !! 0%nat
               = Some {| url := "ws://localhost:8000/api/timer/ws/u1"; readyState := OPEN;
                         ws_userId := "u1" |}) by (vm_compute; reflexivity).
  assert (H2 : OPEN <> CLOSED) by discriminate.
  assert (H3 : timeouts w_closed !! 0%nat
               = Some (Some {| due := 3000; delay := 3000; timeout_userId := "u1" |}))
    by (vm_compute; reflexivity).
  assert (H4 : 3000 <= now w_closed) by (vm_compute; discriminate).
  do 4 (split; [assumption|]).
  destruct (close_schedules_one_reconnect w_open 0 _ w_closed 0 _ H1 H2 H3 H4)
    as [(w' & Hstep & _ & Hstatus & Htimeouts & _)
        (w2' & Hstep2 & _ & Hopenes & _)].
  split.
  - exists w'. split; [exact Hstep|]. split; [exact Hstatus|]. exact Htimeouts.
  - exists w2'. split; [exact Hstep2|].
    destruct (Hopenes {| url := "ws://localhost:8000/api/timer/ws/u1";
                         readyState := CLOSED; ws_userId := "u1" |})
      as (Hsockets & Href & _); [vm_compute; reflexivity | reflexivity |].
    split; [rewrite Href; vm_compute; reflexivity|].
    rewrite Hsockets. vm_compute. reflexivity.
Defined.

(** ** Teardown *)

(** A close event on the socket the ref points to, then three seconds, then
    the timeout the close handler scheduled: a new socket is created,
    whether or not the component is still mounted. *)
Lemma close_then_timeout (w : World) (h : nat) (s : WebSocket) :
  sockets w !! h = Some s ->
  readyState s <> CLOSED ->
  wsRef w = Some h ->
  exists w',
    run w [EClose h; EAdvance 3000; ETimeout (length (timeouts w))] = Some w'
    /\ lifecycle w' = lifecycle w
    /\ length (sockets w') = S (length (sockets w))
    /\ wsRef w' = Some (length (sockets w))
    /\ last (log w') = Some (WsNew (length (sockets w))
                               (ws_address (API_URL (NEXT_PUBLIC_API_URL (env w)))
                                  (ws_userId s))).
Proof.
  intros Hs Hlive Href.
  destruct (step_close w h s Hs Hlive)
    as (w1 & Hstep1 & (He1 & Hn1 & Hl1 & _ & _ & _ & _ & Hr1) & _ & Hs1 & Ht1 & _).
  set (t := {| due := now w + 3000; delay := 3000; timeout_userId := ws_userId s |}) in *.
  set (w2 := with_now (now w1 + 3000) w1).
  assert (Ht2 : timeouts w2 !! length (timeouts w) = Some (Some t)).
  { change (timeouts w2) with (timeouts w1). rewrite Ht1.
    now apply list_lookup_middle. }
  assert (Hdue : due t <= now w2).
  { change (now w2) with (now w1 + 3000). rewrite Hn1. simpl. lia. }
  assert (Hcur : current_socket w2 = Some (with_readyState CLOSED s)).
  { unfold current_socket. change (wsRef w2) with (wsRef w1).
    change (sockets w2) with (sockets w1).
    now rewrite Hr1, Href, Hs1, list_lookup_alter_eq, Hs. }
  destruct (step_timeout w2 _ t Ht2 Hdue)
    as (w' & Hstep3 & (_ & _ & Hl3 & _) & _ & Hopen & _).
  destruct (Hopen _ Hcur eq_refl) as (Hsock & Href' & Hlog).
  exists w'. cbn [run]. rewrite Hstep1.
  change (step w1 (EAdvance 3000)) with (Some w2). cbv beta iota. rewrite Hstep3.
  change (sockets w2) with (sockets w1) in *. change (env w2) with (env w1) in *.
  change (lifecycle w2) with (lifecycle w1) in *.
  rewrite Hs1, length_alter in *. rewrite He1 in *.
  split; [reflexivity|]. split; [congruence|].
  split; [rewrite Hsock, length_app, ?length_alter; simpl; lia|]. split; [exact Href'|].
  rewrite Hlog. apply last_snoc.
Qed.

(** The cleanup closes the socket, the close handler schedules a reconnect,
    and the reconnect finds the socket of the ref CLOSED: from any mounted
    world whose ref points to a socket that is not yet closed, unmounting,
    then the close event, then the timeout after three seconds, end with a
    new socket created by the unmounted component. *)
Lemma teardown_then_reconnect (w : World) (h : nat) (s : WebSocket) :
  lifecycle w = Mounted ->
  wsRef w = Some h ->
  sockets w !! h = Some s ->
  readyState s <> CLOSED ->
  exists w',
    run w [EUnmount; EClose h; EAdvance 3000; ETimeout (length (timeouts w))] = Some w'
    /\ lifecycle w' = Unmounted
    /\ length (sockets w') = S (length (sockets w))
    /\ wsRef w' = Some (length (sockets w))
    /\ last (log w') = Some (WsNew (length (sockets w))
                               (ws_address (API_URL (NEXT_PUBLIC_API_URL (env w)))
                                  (ws_userId s))).
Proof.
  intros Hm Href Hs Hlive.
  assert (Hh : (h < length (sockets w))%nat) by (eapply lookup_lt_Some; eauto).
  (* the world after the cleanup *)
  set (s1 := match readyState s with
             | CONNECTING | OPEN => with_readyState CLOSING s
             | CLOSING | CLOSED => s
             end).
  assert (Hun : exists w1, step w EUnmount = Some w1
                  /\ lifecycle w1 = Unmounted /\ env w1 = env w /\ now w1 = now w
                  /\ wsRef w1 = Some h /\ timeouts w1 = timeouts w
                  /\ sockets w1 = <[h := s1]> (sockets w)).
  { simpl. rewrite Hm. eexists. split; [reflexivity|].
    unfold run_callback, cleanup, bind, gets, WebSocket_close. simpl.
    rewrite Href. simpl. rewrite Hs. subst s1.
    destruct (readyState s) eqn:Hrs; simpl; repeat split; try reflexivity; try congruence.
    all: symmetry; apply list_insert_id; assumption. }
  destruct Hun as (w1 & Hstep1 & Hl1 & He1 & Hn1 & Hr1 & Ht1 & Hs1).
  assert (Hlook1 : sockets w1 !! h = Some s1)
    by (rewrite Hs1; now apply list_lookup_insert_eq).
  assert (Hlive1 : readyState s1 <> CLOSED)
    by (subst s1; destruct (readyState s) eqn:E; simpl; congruence).
  assert (Huid1 : ws_userId s1 = ws_userId s)
    by (subst s1; destruct (readyState s); reflexivity).
  destruct (close_then_timeout w1 h s1 Hlook1 Hlive1 Hr1) as (w' & Hrun & Hl & Hlen & Href' & Hlast).
  exists w'. cbn [run]. rewrite Hstep1. rewrite Ht1 in Hrun. split; [exact Hrun|].
  rewrite Hl, Hlen, Href', Hlast, Hl1, He1, Huid1, Hs1, length_insert. auto.
Qed.

(** C2 fails on the code.  The component is mounted for identity key u1,
    its socket opens, and the component is unmounted: the cleanup closes
    the socket.  The close event then runs the close handler, which
    schedules the reconnect, and when the timeout fires three seconds later
    the socket of the ref is CLOSED, so the unmounted component creates
    socket 1.  The same happens when the socket had closed by itself before
    the unmount. *)
Theorem reconnect_after_unmount :
  (exists w,
     run (init env0) [EMount props0; EOpen 0; EUnmount; EClose 0; EAdvance 3000; ETimeout 0]
     = Some w
     /\ lifecycle w = Unmounted
     /\ log w = [HttpSend 0 (ApiClient.createTimer "u1" 25 5 15 4);
                 WsNew 0 "ws://localhost:8000/api/timer/ws/u1";
                 ConsoleLog "WebSocket connected";
                 WsCloseCall 0;
                 ConsoleLog "WebSocket disconnected";
                 SetTimeout 0 3000;
                 WsNew 1 "ws://localhost:8000/api/timer/ws/u1"]
     /\ sockets w = [{| url := "ws://localhost:8000/api/timer/ws/u1";
                        readyState := CLOSED; ws_userId := "u1" |};
                     {| url := "ws://localhost:8000/api/timer/ws/u1";
                        readyState := CONNECTING; ws_userId := "u1" |}]
     /\ wsRef w = Some 1%nat)
  /\ (exists w,
        run (init env0) [EMount props0; EOpen 0; EClose 0; EUnmount; EAdvance 3000; ETimeout 0]
        = Some w
        /\ lifecycle w = Unmounted
        /\ log w = [HttpSend 0 (ApiClient.createTimer "u1" 25 5 15 4);
                    WsNew 0 "ws://localhost:8000/api/timer/ws/u1";
                    ConsoleLog "WebSocket connected";
                    ConsoleLog "WebSocket disconnected";
                    SetTimeout 0 3000;
                    WsCloseCall 0;
                    WsNew 1 "ws://localhost:8000/api/timer/ws/u1"]
        /\ wsRef w = Some 1%nat).
Proof.
  split; eexists; (split; [vm_compute; reflexivity|]); repeat split.
Qed.

(** ** Initialisation *)

(** C3, as the code has it.  Mounting a fresh component sends the create
    request with the defaults 25, 5, 15, 4 and then, in the same turn and
    with that request still pending, creates the socket for the identity
    key.  When a create request is fulfilled, the fetch of the TimerState
    and then the fetch of the TimerStats are sent, and nothing is done to
    the sockets; when it is rejected the error is logged and nothing is
    fetched. *)
Theorem initialization_order (w : World) (p : StudyTimerProps)
    (w1 : World) (id : nat) (req : Request) (uid : string)
    (response : Resp.Response) (error : string) :
  lifecycle w = Fresh ->
  requests w1 !! id = Some (Some (req, after_createTimer uid)) ->
  (exists w', step w (EMount p) = Some w'
     /\ log w' = log w ++ [HttpSend (length (requests w))
                             (ApiClient.createTimer (userId_of p) 25 5 15 4);
                           WsNew (length (sockets w))
                             (ws_address (API_URL (NEXT_PUBLIC_API_URL (env w)))
                                (userId_of p))]
     /\ requests w' = requests w ++ [Some (ApiClient.createTimer (userId_of p) 25 5 15 4,
                                           after_createTimer (userId_of p))]
     /\ sockets w' = sockets w ++ [{| url := ws_address (API_URL (NEXT_PUBLIC_API_URL (env w)))
                                               (userId_of p);
                                      readyState := CONNECTING;
                                      ws_userId := userId_of p |}]
     /\ wsRef w' = Some (length (sockets w)))
  /\ (exists w1', step w1 (ESettle id (Fulfilled response)) = Some w1'
        /\ log w1' = log w1 ++ [HttpSend (length (requests w1)) (ApiClient.getTimerState uid);
                                HttpSend (S (length (requests w1)))
                                  (ApiClient.getTimerStats uid)]
        /\ requests w1' = <[id := None]> (requests w1)
                          ++ [Some (ApiClient.getTimerState uid, after_getTimerState);
                              Some (ApiClient.getTimerStats uid, after_getTimerStats)]
        /\ sockets w1' = sockets w1 /\ wsRef w1' = wsRef w1)
  /\ (exists w1', step w1 (ESettle id (Rejected error)) = Some w1'
        /\ log w1' = log w1 ++ [ConsoleError "API Error:";
                                ConsoleError "Timer initialization error:"]
        /\ requests w1' = <[id := None]> (requests w1)
        /\ sockets w1' = sockets w1 /\ wsRef w1' = wsRef w1).
Proof.
  intros Hfresh Hreq. split; [|split].
  - simpl. rewrite Hfresh. eexists. split; [reflexivity|].
    unfold with_log; simpl. rewrite <- app_assoc. auto.
  - simpl. rewrite Hreq. eexists. split; [reflexivity|].
    unfold with_log; simpl. rewrite length_app, length_insert, <- !app_assoc.
    simpl. rewrite Nat.add_1_r. auto.
  - simpl. rewrite Hreq. eexists. split; [reflexivity|].
    unfold with_log; simpl. rewrite <- app_assoc. auto.
Qed.

Lemma initialization_order_witness :
  lifecycle (init env0) = Fresh
  /\ requests w_open !! 0%nat
     = Some (Some (ApiClient.createTimer "u1" 25 5 15 4, after_createTimer "u1"))
  /\ (exists w', step (init env0) (EMount props0) = Some w'
        /\ log w' = [HttpSend 0 (ApiClient.createTimer "u1" 25 5 15 4);
                     WsNew 0 "ws://localhost:8000/api/timer/ws/u1"])
  /\ (exists w1', step w_open (ESettle 0 (Fulfilled ack)) = Some w1'
        /\ log w1' = log w_open ++ [HttpSend 1 (ApiClient.getTimerState "u1");
                                    HttpSend 2 (ApiClient.getTimerStats "u1")]).
Proof.
  assert (H1 : lifecycle (init env0) = Fresh) by reflexivity.
  assert (H2 : requests w_open !! 0%nat
               = Some (Some (ApiClient.createTimer "u1" 25 5 15 4, after_createTimer "u1")))
    by (vm_compute; reflexivity).
  split; [exact H1|]. split; [exact H2|].
  destruct (initialization_order (init env0) props0 w_open 0 _ "u1" ack EmptyString H1 H2)
    as [(w' & Hstep & Hlog & _) [(w1' & Hstep1 & Hlog1 & _) _]].
  split.
  - exists w'. split; [exact Hstep|]. rewrite Hlog. reflexivity.
  - exists w1'. split; [exact Hstep1|]. rewrite Hlog1. reflexivity.
Defined.

(** C3 does not hold as stated: right after mounting, the socket has been
    created while the create request is pending and neither fetch has been
    sent; the socket can even open before the create request completes. *)
Lemma socket_opened_before_create_completes :
  (exists w,
     step (init env0) (EMount props0) = Some w
     /\ connection_opened w
     /\ create_pending w
     /\ log w = [HttpSend 0 (ApiClient.createTimer "u1" 25 5 15 4);
                 WsNew 0 "ws://localhost:8000/api/timer/ws/u1"])
  /\ (exists w,
        run (init env0) [EMount props0; EOpen 0] = Some w
        /\ requests w = [Some (ApiClient.createTimer "u1" 25 5 15 4, after_createTimer "u1")]
        /\ log w = [HttpSend 0 (ApiClient.createTimer "u1" 25 5 15 4);
                    WsNew 0 "ws://localhost:8000/api/timer/ws/u1";
                    ConsoleLog "WebSocket connected"]
        /\ isConnected w = true
        /\ (readyState <$> current_socket w) = Some OPEN)
  /\ ~ (forall e p w, step (init e) (EMount p) = Some w ->
          connection_opened w -> ~ create_pending w).
Proof.
  assert (Hopened : connection_opened
                      (default (init env0) (step (init env0) (EMount props0)))).
  { exists 0%nat, "ws://localhost:8000/api/timer/ws/u1". vm_compute. auto. }
  assert (Hpending : create_pending
                       (default (init env0) (step (init env0) (EMount props0)))).
  { exists 0%nat, (ApiClient.createTimer "u1" 25 5 15 4), "u1". vm_compute. reflexivity. }
  split; [|split].
  - exists (default (init env0) (step (init env0) (EMount props0))).
    split; [vm_compute; reflexivity|]. split; [exact Hopened|].
    split; [exact Hpending|]. vm_compute. reflexivity.
  - eexists. split; [vm_compute; reflexivity|]. repeat split.
  - intros Hclaim.
    apply (Hclaim env0 props0 (default (init env0) (step (init env0) (EMount props0))));
      [vm_compute; reflexivity | exact Hopened | exact Hpending].
Qed.

(** ** Further properties of the timer component *)

Ltac unfold_callbacks :=
  unfold run_callback, settle, interceptor, resume, effect, cleanup,
    initializeTimer, initializeTimer_resume, fetchTimerState, fetchTimerState_resume,
    fetchStats, fetchStats_resume, connectWebSocket, onopen, onmessage, onerror,
    onclose, reconnect, handleStart, handleStart_resume, handlePause,
    handlePause_resume, handleReset, handleReset_resume, WebSocket_close,
    new_WebSocket, setTimeout, call, await, response_data, JSON_parse,
    console_log, console_error, toast_success, toast_error, setTimerState,
    setStats, setIsConnected, emit, modify, gets, skip, try_catch, bind, ret,
    throw, set_readyState, current_socket in *.

(** Case analysis on one turn of the event loop: every way [step w e] can
    be [Some w'], with [w'] written out. *)
Ltac split_step H :=
  unfold step in H; unfold_callbacks; simpl in H;
  repeat (match type of H with
          | context [match ?x with _ => _ end] =>
              lazymatch type of x with
              | prod (Completion _) _ => fail
              | _ => destruct x eqn:?; simpl in H
              end
          end);
  try discriminate H; try (injection H as <-).

(** What holds initially and is kept by every turn holds in every world
    the component reaches. *)
Lemma run_invariant (P : World -> Prop) :
  (forall w e w', step w e = Some w' -> P w -> P w') ->
  forall es w w', run w es = Some w' -> P w -> P w'.
Proof.
  intros Hstep es. induction es as [|e es IH]; intros w w' Hrun HP; simpl in Hrun.
  - now injection Hrun as <-.
  - destruct (step w e) as [w1|] eqn:E; [|discriminate].
    eapply IH; [exact Hrun|]. eapply Hstep; eauto.
Qed.

Lemma ref_is_newest_step w e w' :
  step w e = Some w' -> ref_is_newest w -> ref_is_newest w'.
Proof.
  intros Hstep Hinv. unfold ref_is_newest in *.
  destruct e; split_step Hstep; simpl in *;
    repeat match goal with
           | H : wsRef _ = _ |- _ => rewrite H in *
           end;
    try destruct (wsRef w) eqn:?;
    rewrite ?length_app, ?length_alter, ?length_insert; simpl;
    try assumption; try lia; try congruence.
  all: try (rewrite Hinv in *; reflexivity).
  all: try (rewrite Hinv in *; rewrite lookup_nil in *; discriminate).
Qed.

(** X1.  In every world the component reaches, the ref is empty exactly
    while no socket has been created, and otherwise it points to the
    socket created last: the ref never dangles and never points to an
    older socket. *)
Theorem wsRef_points_to_newest_socket (e : Env) (w : World) :
  reachable e w ->
  match wsRef w with
  | None => sockets w = []
  | Some h => length (sockets w) = S h /\ exists s, current_socket w = Some s
  end.
Proof.
  intros (es & Hrun).
  assert (Hinv : ref_is_newest w).
  { eapply run_invariant; [apply ref_is_newest_step | exact Hrun | reflexivity]. }
  unfold ref_is_newest, current_socket in *. destruct (wsRef w) as [h|]; [|exact Hinv].
  split; [exact Hinv|]. apply lookup_lt_is_Some. lia.
Qed.

Lemma wsRef_points_to_newest_socket_witness :
  reachable env0 w_closed
  /\ length (sockets w_closed) = 1%nat
  /\ exists s, current_socket w_closed = Some s.
Proof.
  assert (Hr : reachable env0 w_closed)
    by (exists [EMount props0; EOpen 0; EClose 0; EAdvance 3000]; vm_compute; reflexivity).
  split; [exact Hr|].
  pose proof (wsRef_points_to_newest_socket env0 w_closed Hr) as H.
  change (wsRef w_closed) with (Some 0%nat) in H. exact H.
Defined.


Lemma later_state_refl s : later_state s s.
Proof. unfold later_state. auto. Qed.

Lemma later_state_trans s1 s2 s3 :
  later_state s1 s2 -> later_state s2 s3 -> later_state s1 s3.
Proof. unfold later_state. intros (-> & -> & ?) (-> & -> & ?). repeat split; lia. Qed.

Lemma lookup_alter_later (l : list WebSocket) (h i : nat) (s si : WebSocket) (v : ReadyState) :
  l !! h = Some s -> l !! i = Some si ->
  (ReadyState_code (readyState si) <= ReadyState_code v)%nat ->
  exists s', alter (with_readyState v) i l !! h = Some s' /\ later_state s s'.
Proof.
  intros Hh Hi Hle. destruct (decide (i = h)) as [-> | Hne].
  - rewrite list_lookup_alter_eq, Hh. simpl. eexists; split; [reflexivity|].
    assert (si = s) as -> by congruence. unfold later_state; simpl. auto.
  - rewrite list_lookup_alter_ne by exact Hne. eauto using later_state_refl.
Qed.

Lemma lookup_insert_later (l : list WebSocket) (h i : nat) (s si : WebSocket) (v : ReadyState) :
  l !! h = Some s -> l !! i = Some si ->
  (ReadyState_code (readyState si) <= ReadyState_code v)%nat ->
  exists s', <[i := with_readyState v si]> l !! h = Some s' /\ later_state s s'.
Proof.
  intros Hh Hi Hle. destruct (decide (i = h)) as [-> | Hne].
  - rewrite list_lookup_insert_eq by (eapply lookup_lt_Some; eauto).
    eexists; split; [reflexivity|].
    assert (si = s) as -> by congruence. unfold later_state; simpl. auto.
  - rewrite list_lookup_insert_ne by exact Hne. eauto using later_state_refl.
Qed.

Lemma lookup_snoc_later (l : list WebSocket) (h : nat) (s x : WebSocket) :
  (exists s', l !! h = Some s' /\ later_state s s') ->
  exists s', (l ++ [x]) !! h = Some s' /\ later_state s s'.
Proof.
  intros (s' & Hs' & Hl). exists s'. split; [|exact Hl].
  rewrite lookup_app_l; [exact Hs'|]. eapply lookup_lt_Some; eauto.
Qed.

Lemma sockets_step w e w' h s :
  step w e = Some w' ->
  sockets w !! h = Some s ->
  exists s', sockets w' !! h = Some s' /\ later_state s s'.
Proof.
  intros Hstep Hs.
  destruct e; split_step Hstep; simpl;
    repeat apply lookup_snoc_later;
    try (eexists; split; [eassumption | apply later_state_refl]);
    try (eapply lookup_alter_later; eauto;
         match goal with H : readyState _ = _ |- _ => rewrite H end; simpl; lia);
    try (eapply lookup_insert_later; eauto;
         match goal with H : readyState _ = _ |- _ => rewrite H end; simpl; lia).
Qed.

(** X2.  Along every run of the event loop a socket object stays where it
    is in the store with the address and the identity key it was created
    with, and its [readyState] never moves backwards: the component never
    reopens or re-addresses a socket, and a CLOSED socket stays CLOSED. *)
Theorem sockets_only_move_forward (w w' : World) (es : list Event)
    (h : nat) (s : WebSocket) :
  run w es = Some w' ->
  sockets w !! h = Some s ->
  exists s', sockets w' !! h = Some s'
    /\ url s' = url s /\ ws_userId s' = ws_userId s
    /\ (ReadyState_code (readyState s) <= ReadyState_code (readyState s'))%nat
    /\ (readyState s = CLOSED -> readyState s' = CLOSED).
Proof.
  intros Hrun Hs.
  assert (H : exists s', sockets w' !! h = Some s' /\ later_state s s').
  { eapply (run_invariant (fun x => exists s', sockets x !! h = Some s' /\ later_state s s'));
      [|exact Hrun|eauto using later_state_refl].
    intros w1 e w2 Hstep (s1 & Hs1 & Hl1).
    destruct (sockets_step _ _ _ _ _ Hstep Hs1) as (s2 & Hs2 & Hl2).
    eauto using later_state_trans. }
  destruct H as (s' & Hs' & Hu & Hk & Hle). exists s'.
  repeat split; auto. intros Hc. rewrite Hc in Hle.
  destruct (readyState s'); simpl in Hle; (reflexivity || lia).
Qed.

Lemma sockets_only_move_forward_witness :
  run w_open [EClose 0; EAdvance 3000; ETimeout 0]
  = Some (default w_open (run w_open [EClose 0; EAdvance 3000; ETimeout 0]))
  /\ sockets w_open !! 0%nat
     = Some {| url := "ws://localhost:8000/api/timer/ws/u1"; readyState := OPEN;
               ws_userId := "u1" |}
  /\ exists s',
       sockets (default w_open (run w_open [EClose 0; EAdvance 3000; ETimeout 0])) !! 0%nat
       = Some s'
       /\ url s' = "ws://localhost:8000/api/timer/ws/u1"
       /\ (1 <= ReadyState_code (readyState s'))%nat.
Proof.
  assert (Hrun : run w_open [EClose 0; EAdvance 3000; ETimeout 0]
                 = Some (default w_open (run w_open [EClose 0; EAdvance 3000; ETimeout 0])))
    by (vm_compute; reflexivity).
  assert (Hs : sockets w_open !! 0%nat
               = Some {| url := "ws://localhost:8000/api/timer/ws/u1"; readyState := OPEN;
                         ws_userId := "u1" |}) by (vm_compute; reflexivity).
  split; [exact Hrun|]. split; [exact Hs|].
  destruct (sockets_only_move_forward _ _ _ _ _ Hrun Hs) as (s' & Hs' & Hu & _ & Hle & _).
  exists s'. split; [exact Hs'|]. split; [exact Hu | exact Hle].
Defined.





(** X4.  A message whose text does not parse is dropped: the handler
    throws before it writes anything, so the event loop reports one
    uncaught SyntaxError and every cell, socket, timeout and request is as
    before; the view does not change. *)
Theorem malformed_message_is_dropped (w : World) (h : nat) :
  is_open w h ->
  step w (EMessage h Malformed) = Some (with_log (log w ++ [Uncaught "SyntaxError"]) w)
  /\ timerState (with_log (log w ++ [Uncaught "SyntaxError"]) w) = timerState w
  /\ render (with_log (log w ++ [Uncaught "SyntaxError"]) w) = render w.
Proof.
  intros (s & Hs & Hopen). simpl. rewrite Hs, Hopen. repeat split.
Qed.

Lemma malformed_message_is_dropped_witness :
  is_open w_open 0
  /\ step w_open (EMessage 0 Malformed)
     = Some (with_log (log w_open ++ [Uncaught "SyntaxError"]) w_open).
Proof.
  assert (Hopen : is_open w_open 0) by (eexists; split; vm_compute; reflexivity).
  split; [exact Hopen|].
  exact (proj1 (malformed_message_is_dropped w_open 0 Hopen)).
Defined.

(** X5.  The cached TimerStats are written by nothing but the fulfilled
    response to a stats fetch: no push message, command, connection event
    or timeout changes them. *)
Theorem stats_changed_only_by_fetch (w w' : World) (e : Event) :
  step w e = Some w' ->
  stats w' <> stats w ->
  exists id response req,
    e = ESettle id (Fulfilled response)
    /\ requests w !! id = Some (Some (req, after_getTimerStats)).
Proof.
  intros Hstep.
  destruct e; split_step Hstep; simpl; intros Hne;
    try (exfalso; apply Hne; reflexivity).
  subst. eauto.
Qed.

Lemma stats_changed_only_by_fetch_witness :
  step w_started (ESettle 2 (Fulfilled (stats_response stats0)))
  = Some (default w_started (step w_started (ESettle 2 (Fulfilled (stats_response stats0)))))
  /\ stats (default w_started (step w_started (ESettle 2 (Fulfilled (stats_response stats0)))))
     <> stats w_started
  /\ exists id response req,
       ESettle 2 (Fulfilled (stats_response stats0)) = ESettle id (Fulfilled response)
       /\ requests w_started !! id = Some (Some (req, after_getTimerStats)).
Proof.
  assert (Hstep : step w_started (ESettle 2 (Fulfilled (stats_response stats0)))
                  = Some (default w_started
                            (step w_started (ESettle 2 (Fulfilled (stats_response stats0))))))
    by (vm_compute; reflexivity).
  assert (Hne : stats (default w_started
                         (step w_started (ESettle 2 (Fulfilled (stats_response stats0)))))
                <> stats w_started) by (vm_compute; discriminate).
  split; [exact Hstep|]. split; [exact Hne|].
  exact (stats_changed_only_by_fetch _ _ _ Hstep Hne).
Defined.


(** X6.  A push message without a [state] (or with a null one) empties the
    cache: the component goes back to the spinner and its buttons are no
    longer on screen.  The same happens when the response to the state
    fetch has a body without [state]. *)
Theorem stateless_update_shows_spinner (w : World) (h : nat) (m : Push.Message)
    (w2 : World) (id : nat) (req : Request) (response : Resp.Response) (d : Resp.Data) :
  is_open w h ->
  Push.state m = None ->
  requests w2 !! id = Some (Some (req, after_getTimerState)) ->
  Resp.data response = Some d ->
  Resp.state d = None ->
  (exists w', step w (EMessage h (Json m)) = Some w'
     /\ render w' = Spinner
     /\ step w' EClickPlayPause = None
     /\ step w' EClickReset = None)
  /\ (exists w2', step w2 (ESettle id (Fulfilled response)) = Some w2'
        /\ render w2' = Spinner
        /\ step w2' EClickPlayPause = None
        /\ step w2' EClickReset = None).
Proof.
  intros Hopen Hm Hreq Hd Hst. split.
  - rewrite (step_message w h m Hopen), onmessage_Json. eexists. split; [reflexivity|].
    unfold render. simpl. rewrite Hm. repeat split; destruct (lifecycle w); reflexivity.
  - simpl. rewrite Hreq. eexists. split; [reflexivity|].
    unfold_callbacks. simpl. rewrite Hd. simpl. unfold render. simpl. rewrite Hst.
    repeat split; destruct (lifecycle w2); reflexivity.
Qed.

Lemma stateless_update_shows_spinner_witness :
  is_open w_started 0
  /\ timerState w_started = Some ts_idle
  /\ requests w_created !! 1%nat
     = Some (Some (ApiClient.getTimerState "u1", after_getTimerState))
  /\ (exists w', step w_started
                   (EMessage 0 (Json {| Push.state := None; Push.notification := Absent |}))
                 = Some w'
        /\ render w' = Spinner)
  /\ (exists w2', step w_created (ESettle 1 (Fulfilled ack)) = Some w2'
        /\ render w2' = Spinner).
Proof.
  assert (Hopen : is_open w_started 0) by (eexists; split; vm_compute; reflexivity).
  assert (Hreq : requests w_created !! 1%nat
                 = Some (Some (ApiClient.getTimerState "u1", after_getTimerState)))
    by (vm_compute; reflexivity).
  split; [exact Hopen|]. split; [vm_compute; reflexivity|]. split; [exact Hreq|].
  destruct (stateless_update_shows_spinner w_started 0
              {| Push.state := None; Push.notification := Absent |}
              w_created 1 _ ack {| Resp.state := None; Resp.stats := None |}
              Hopen eq_refl Hreq eq_refl eq_refl)
    as ((w' & Hs & Hr & _) & (w2' & Hs2 & Hr2 & _)).
  split; [exists w' | exists w2']; auto.
Defined.

(** X7.  An error event followed by the close event of the same socket
    schedules one reconnect, not two: the error handler only logs and marks
    the status Disconnected; it neither closes the socket nor sets a
    timeout. *)
Theorem error_then_close_schedules_one_reconnect (w : World) (h : nat) (s : WebSocket) :
  sockets w !! h = Some s ->
  readyState s <> CLOSED ->
  exists w1 w2,
    step w (EError h) = Some w1
    /\ sockets w1 = sockets w /\ timeouts w1 = timeouts w /\ wsRef w1 = wsRef w
    /\ isConnected w1 = false
    /\ step w1 (EClose h) = Some w2
    /\ timeouts w2 = timeouts w ++ [Some {| due := now w + 3000; delay := 3000;
                                            timeout_userId := ws_userId s |}]
    /\ length (sockets w2) = length (sockets w)
    /\ log w2 = log w ++ [ConsoleError "WebSocket error:";
                          ConsoleLog "WebSocket disconnected";
                          SetTimeout (length (timeouts w)) 3000].
Proof.
  intros Hs Hlive.
  assert (Hstep1 : step w (EError h)
                   = Some (with_isConnected false
                             (with_log (log w ++ [ConsoleError "WebSocket error:"]) w))).
  { simpl. rewrite Hs. destruct (readyState s); first [reflexivity | congruence]. }
  eexists _, _. split; [exact Hstep1|]. do 4 (split; [reflexivity|]).
  assert (Hstep2 : forall w1, sockets w1 = sockets w ->
            step w1 (EClose h)
            = Some (run_callback (onclose (ws_userId s)) (set_readyState h CLOSED w1))).
  { intros w1 Hw1. simpl. rewrite Hw1, Hs.
    destruct (readyState s); first [reflexivity | congruence]. }
  split; [apply Hstep2; reflexivity|].
  simpl. rewrite length_alter, <- !app_assoc. auto.
Qed.

Lemma error_then_close_schedules_one_reconnect_witness :
  sockets w_open !! 0%nat
  = Some {| url := "ws://localhost:8000/api/timer/ws/u1"; readyState := OPEN;
            ws_userId := "u1" |}
  /\ OPEN <> CLOSED
  /\ exists w1 w2,
       step w_open (EError 0) = Some w1
       /\ step w1 (EClose 0) = Some w2
       /\ timeouts w2 = [Some {| due := 3000; delay := 3000; timeout_userId := "u1" |}].
Proof.
  assert (H1 : sockets w_open !! 0%nat
               = Some {| url := "ws://localhost:8000/api/timer/ws/u1"; readyState := OPEN;
                         ws_userId := "u1" |}) by (vm_compute; reflexivity).
  assert (H2 : OPEN <> CLOSED) by discriminate.
  split; [exact H1|]. split; [exact H2|].
  destruct (error_then_close_schedules_one_reconnect w_open 0 _ H1 H2)
    as (w1 & w2 & Hs1 & _ & _ & _ & _ & Hs2 & Ht & _).
  exists w1, w2. split; [exact Hs1|]. split; [exact Hs2|]. exact Ht.
Defined.




(** X9.  A re-render of the mounted component with the same identity key
    only records the new props.  A re-render with another identity key
    runs the cleanup and the effect again: the socket of the ref is asked
    to close, a create request for the new key leaves, and a socket at the
    address of the new key is created and becomes the socket of the ref.
    The cached TimerState of the previous key is not cleared. *)
Theorem rerender_reconnects_on_new_userId (w : World) (p q : StudyTimerProps)
    (h : nat) (s : WebSocket) :
  lifecycle w = Mounted ->
  wsRef w = Some h ->
  sockets w !! h = Some s ->
  userId_of p = userId_of (props w) ->
  userId_of q <> userId_of (props w) ->
  step w (ERender p) = Some (with_props p w)
  /\ exists w', step w (ERender q) = Some w'
       /\ props w' = q
       /\ log w' = log w ++ [WsCloseCall h;
                             HttpSend (length (requests w))
                               (ApiClient.createTimer (userId_of q) 25 5 15 4);
                             WsNew (length (sockets w))
                               (ws_address (API_URL (NEXT_PUBLIC_API_URL (env w)))
                                  (userId_of q))]
       /\ wsRef w' = Some (length (sockets w))
       /\ current_socket w'
          = Some {| url := ws_address (API_URL (NEXT_PUBLIC_API_URL (env w))) (userId_of q);
                    readyState := CONNECTING; ws_userId := userId_of q |}
       /\ timerState w' = timerState w.
Proof.
  intros Hm Href Hs Hsame Hnew. split.
  - simpl. rewrite Hm, Hsame, String.eqb_refl. reflexivity.
  - simpl. rewrite Hm.
    assert (Hneq : String.eqb (userId_of (props w)) (userId_of q) = false).
    { apply String.eqb_neq. congruence. }
    rewrite Hneq. eexists. split; [reflexivity|].
    unfold_callbacks. simpl. rewrite Href. simpl. rewrite Hs.
    destruct (readyState s); simpl; rewrite ?length_insert, <- ?app_assoc; simpl;
      repeat split; try reflexivity;
      rewrite list_lookup_middle; try reflexivity; now rewrite ?length_insert.
Qed.

Lemma rerender_reconnects_on_new_userId_witness :
  lifecycle w_open = Mounted
  /\ wsRef w_open = Some 0%nat
  /\ sockets w_open !! 0%nat
     = Some {| url := "ws://localhost:8000/api/timer/ws/u1"; readyState := OPEN;
               ws_userId := "u1" |}
  /\ userId_of {| userId := Some "u1"; currentTopic := Some "algebra" |}
     = userId_of (props w_open)
  /\ userId_of {| userId := Some "u2"; currentTopic := None |} <> userId_of (props w_open)
  /\ exists w', step w_open (ERender {| userId := Some "u2"; currentTopic := None |}) = Some w'
       /\ wsRef w' = Some 1%nat.
Proof.
  assert (H1 : lifecycle w_open = Mounted) by (vm_compute; reflexivity).
  assert (H2 : wsRef w_open = Some 0%nat) by (vm_compute; reflexivity).
  assert (H3 : sockets w_open !! 0%nat
               = Some {| url := "ws://localhost:8000/api/timer/ws/u1"; readyState := OPEN;
                         ws_userId := "u1" |}) by (vm_compute; reflexivity).
  assert (H4 : userId_of {| userId := Some "u1"; currentTopic := Some "algebra" |}
               = userId_of (props w_open)) by (vm_compute; reflexivity).
  assert (H5 : userId_of {| userId := Some "u2"; currentTopic := None |}
               <> userId_of (props w_open)) by (vm_compute; discriminate).
  do 5 (split; [assumption|]).
  destruct (rerender_reconnects_on_new_userId w_open _ _ 0 _ H1 H2 H3 H4 H5)
    as (_ & w' & Hstep & _ & _ & Href & _).
  exists w'. split; [exact Hstep | exact Href].
Defined.

(** X10.  When the request of a command is fulfilled, whatever the
    response holds, the handler shows the success toast of that command;
    the reset command first sends a new stats fetch for the identity key it
    was invoked with; start and pause send nothing.  No cell changes. *)
Theorem command_success (w : World) (c : Command) (uid : string)
    (id : nat) (req : Request) (response : Resp.Response) :
  requests w !! id = Some (Some (req, continuation_of c uid)) ->
  exists w', step w (ESettle id (Fulfilled response)) = Some w'
    /\ timerState w' = timerState w /\ stats w' = stats w
    /\ isConnected w' = isConnected w /\ sockets w' = sockets w
    /\ match c with
       | start _ =>
           log w' = log w ++ [ToastSuccess "Timer started!" None]
           /\ requests w' = <[id := None]> (requests w)
       | pause =>
           log w' = log w ++ [ToastSuccess "Timer paused" None]
           /\ requests w' = <[id := None]> (requests w)
       | reset =>
           log w' = log w ++ [HttpSend (length (requests w)) (ApiClient.getTimerStats uid);
                              ToastSuccess "Timer reset" None]
           /\ requests w' = <[id := None]> (requests w)
                            ++ [Some (ApiClient.getTimerStats uid, after_getTimerStats)]
       end.
Proof.
  intros Hreq. simpl. rewrite Hreq. eexists. split; [reflexivity|].
  destruct c; simpl; rewrite ?length_insert, <- ?app_assoc; auto 10.
Qed.

Lemma command_success_witness :
  requests w_started !! 3%nat
  = Some (Some (ApiClient.startTimer "u1" None, continuation_of (start None) "u1"))
  /\ exists w', step w_started (ESettle 3 (Fulfilled ack)) = Some w'
       /\ timerState w' = Some ts_idle
       /\ log w' = log w_started ++ [ToastSuccess "Timer started!" None].
Proof.
  assert (Hreq : requests w_started !! 3%nat
                 = Some (Some (ApiClient.startTimer "u1" None,
                               continuation_of (start None) "u1")))
    by (vm_compute; reflexivity).
  split; [exact Hreq|].
  destruct (command_success w_started (start None) "u1" 3 _ ack Hreq)
    as (w' & Hstep & Hts & _ & _ & _ & Hlog & _).
  exists w'. split; [exact Hstep|]. split; [|exact Hlog].
  rewrite Hts. vm_compute. reflexivity.
Defined.

(** X11.  Unmounting asks the socket of the ref to close: a socket that is
    connecting or open becomes CLOSING, one that is closing or closed is
    left alone; no request is sent, no timeout is set or cancelled, and the
    component accepts no further mount, render or click. *)
Theorem unmount_closes_socket (w : World) (h : nat) (s : WebSocket) (p : StudyTimerProps) :
  lifecycle w = Mounted ->
  wsRef w = Some h ->
  sockets w !! h = Some s ->
  exists w', step w EUnmount = Some w'
    /\ lifecycle w' = Unmounted
    /\ sockets w' !! h
       = Some (match readyState s with
               | CONNECTING | OPEN => with_readyState CLOSING s
               | CLOSING | CLOSED => s
               end)
    /\ length (sockets w') = length (sockets w)
    /\ log w' = log w ++ [WsCloseCall h]
    /\ timeouts w' = timeouts w /\ requests w' = requests w
    /\ step w' (EMount p) = None /\ step w' (ERender p) = None
    /\ step w' EUnmount = None
    /\ step w' EClickPlayPause = None /\ step w' EClickReset = None.
Proof.
  intros Hm Href Hs. simpl. rewrite Hm. eexists. split; [reflexivity|].
  unfold_callbacks. simpl. rewrite Href. simpl. rewrite Hs.
  assert (Hh : (h < length (sockets w))%nat) by (eapply lookup_lt_Some; eauto).
  destruct (readyState s); simpl;
    rewrite ?length_insert, ?list_lookup_insert_eq by exact Hh; auto 15.
Qed.

Lemma unmount_closes_socket_witness :
  lifecycle w_open = Mounted
  /\ wsRef w_open = Some 0%nat
  /\ sockets w_open !! 0%nat
     = Some {| url := "ws://localhost:8000/api/timer/ws/u1"; readyState := OPEN;
               ws_userId := "u1" |}
  /\ exists w', step w_open EUnmount = Some w'
       /\ sockets w' !! 0%nat
          = Some {| url := "ws://localhost:8000/api/timer/ws/u1"; readyState := CLOSING;
                    ws_userId := "u1" |}
       /\ step w' (EMount props0) = None.
Proof.
  assert (H1 : lifecycle w_open = Mounted) by (vm_compute; reflexivity).
  assert (H2 : wsRef w_open = Some 0%nat) by (vm_compute; reflexivity).
  assert (H3 : sockets w_open !! 0%nat
               = Some {| url := "ws://localhost:8000/api/timer/ws/u1"; readyState := OPEN;
                         ws_userId := "u1" |}) by (vm_compute; reflexivity).
  do 3 (split; [assumption|]).
  destruct (unmount_closes_socket w_open 0 _ props0 H1 H2 H3)
    as (w' & Hstep & _ & Hs & _ & _ & _ & _ & Hm & _).
  exists w'. split; [exact Hstep|]. split; [exact Hs | exact Hm].
Defined.


(** ** Further properties of the address and of the formatter *)

Lemma startsWith_app (pat b : string) : Js.startsWith pat (pat +:+ b) = true.
Proof.
  induction pat as [|c pat IH]; simpl; [reflexivity|].
  now rewrite Ascii.eqb_refl.
Qed.

Lemma drop_chars_app_length (pat b : string) :
  Js.drop_chars (String.length pat) (pat +:+ b) = b.
Proof. induction pat as [|c pat IH]; simpl; [now destruct b | exact IH]. Qed.

Lemma replace_unfold (pat rep s : string) :
  Js.replace pat rep s
  = if Js.startsWith pat s then rep +:+ Js.drop_chars (String.length pat) s
    else match s with
         | EmptyString => EmptyString
         | String c s' => String c (Js.replace pat rep s')
         end.
Proof. destruct s; reflexivity. Qed.

Lemma replace_no_occurrence (pat rep s : string) :
  (forall i, (i <= String.length s)%nat -> Js.startsWith pat (Js.drop_chars i s) = false) ->
  Js.replace pat rep s = s.
Proof.
  induction s as [|c s IH]; intros Hno; rewrite replace_unfold;
    pose proof (Hno 0%nat (Nat.le_0_l _)) as H0; simpl in H0; rewrite H0.
  - reflexivity.
  - f_equal. apply IH. intros i Hi. apply (Hno (S i)). simpl. lia.
Qed.

Lemma replace_first_occurrence (pat rep a b : string) :
  (forall i, (i < String.length a)%nat ->
             Js.startsWith pat (Js.drop_chars i (a +:+ pat +:+ b)) = false) ->
  Js.replace pat rep (a +:+ pat +:+ b) = a +:+ rep +:+ b.
Proof.
  induction a as [|c a IH]; intros Hno.
  - change (EmptyString +:+ pat +:+ b) with (pat +:+ b).
    change (EmptyString +:+ rep +:+ b) with (rep +:+ b).
    now rewrite replace_unfold, startsWith_app, drop_chars_app_length.
  - pose proof (Hno 0%nat) as H0.
    change (String c a +:+ pat +:+ b) with (String c (a +:+ pat +:+ b)) in *.
    change (String c a +:+ rep +:+ b) with (String c (a +:+ rep +:+ b)).
    change (Js.drop_chars 0 (String c (a +:+ pat +:+ b)))
      with (String c (a +:+ pat +:+ b)) in H0.
    rewrite replace_unfold, H0 by (simpl; lia).
    f_equal. apply IH. intros i Hi. apply (Hno (S i)). simpl. lia.
Qed.

(** X12.  The live-connection base address is the backend address with
    its first occurrence of the lower-case text http, wherever it stands,
    replaced by ws, and everything else kept; a backend address in which
    that text does not occur is used unchanged. *)
Theorem WS_URL_replaces_first_http (a b s : string) :
  (forall i, (i < String.length a)%nat ->
             Js.startsWith "http" (Js.drop_chars i (a +:+ "http" +:+ b)) = false) ->
  (forall i, (i <= String.length s)%nat ->
             Js.startsWith "http" (Js.drop_chars i s) = false) ->
  WS_URL (a +:+ "http" +:+ b) = a +:+ "ws" +:+ b
  /\ WS_URL s = s.
Proof.
  intros Ha Hs. split.
  - apply (replace_first_occurrence "http" "ws" a b Ha).
  - apply (replace_no_occurrence "http" "ws" s Hs).
Qed.

Lemma WS_URL_replaces_first_http_witness :
  (forall i, (i < String.length "//")%nat ->
             Js.startsWith "http" (Js.drop_chars i ("//" +:+ "http" +:+ ".example/http")) = false)
  /\ (forall i, (i <= String.length "wss://host")%nat ->
                Js.startsWith "http" (Js.drop_chars i "wss://host") = false)
  /\ WS_URL "//http.example/http" = "//ws.example/http"
  /\ WS_URL "wss://host" = "wss://host".
Proof.
  assert (Ha : forall i, (i < String.length "//")%nat ->
             Js.startsWith "http" (Js.drop_chars i ("//" +:+ "http" +:+ ".example/http")) = false).
  { intros i Hi. simpl in Hi. destruct i as [|[|i]]; [reflexivity | reflexivity | lia]. }
  assert (Hs : forall i, (i <= String.length "wss://host")%nat ->
                Js.startsWith "http" (Js.drop_chars i "wss://host") = false).
  { intros i Hi. simpl in Hi.
    do 11 (destruct i as [|i]; [reflexivity|]). lia. }
  split; [exact Ha|]. split; [exact Hs|].
  exact (WS_URL_replaces_first_http "//" ".example/http" "wss://host" Ha Hs).
Defined.

Lemma append_inj_length (s1 s2 t1 t2 : string) :
  String.length s1 = String.length s2 ->
  s1 +:+ t1 = s2 +:+ t2 -> s1 = s2 /\ t1 = t2.
Proof.
  revert s2. induction s1 as [|c s1 IH]; intros [|d s2] Hlen Heq;
    try discriminate Hlen; simpl in *.
  - auto.
  - injection Heq as -> Heq. injection Hlen as Hlen.
    destruct (IH s2 Hlen Heq) as [-> ->]. auto.
Qed.

Lemma formatTime_parts (s : N) :
  s < 2 ^ 53 ->
  formatTime s
  = zero_padded 2 (Js.toString (s / 60)) +:+ ":" +:+ zero_padded 2 (Js.toString (s mod 60))
  /\ String.length (zero_padded 2 (Js.toString (s mod 60))) = 2%nat.
Proof.
  intros Hs. split.
  - unfold formatTime. now rewrite floor_divide_60, !padStart_zero.
  - rewrite length_zero_padded.
    assert (s mod 60 < 60) as Hlt by (apply N.mod_lt; discriminate).
    apply length_toString_below_60 in Hlt. lia.
Qed.

Lemma length_toString_below_100 k :
  k < 100 -> (String.length (Js.toString k) <= 2)%nat.
Proof.
  intros Hk.
  assert (Hin : In k (map N.of_nat (seq 0 100))).
  { rewrite <- (N2Nat.id k). apply in_map, in_seq. lia. }
  assert (F : Forall (fun k => (String.length (Js.toString k) <= 2)%nat)
                (map N.of_nat (seq 0 100))).
  { vm_compute. repeat constructor. }
  rewrite Stdlib.Lists.List.Forall_forall in F. auto.
Qed.

Lemma digit_value_le c d : digit_value c = Some d -> d <= 9.
Proof.
  unfold digit_value.
  destruct (N.leb_spec 48 (N_of_ascii c)), (N.leb_spec (N_of_ascii c) 57);
    simpl; intros Hd; inversion Hd; lia.
Qed.

Lemma length_toString_from_100 n :
  100 <= n -> (3 <= String.length (Js.toString n))%nat.
Proof.
  intros Hn. pose proof (read_decimal_toString n) as Hr.
  destruct (Js.toString n) as [|c [|d [|e rest]]]; simpl in *; try lia; exfalso.
  - discriminate Hr.
  - destruct (digit_value c) as [x|] eqn:Ex; [|discriminate].
    apply digit_value_le in Ex. injection Hr as <-. lia.
  - destruct (digit_value c) as [x|] eqn:Ex; [|discriminate].
    destruct (digit_value d) as [y|] eqn:Ey; [|discriminate].
    apply digit_value_le in Ex. apply digit_value_le in Ey. injection Hr as <-. lia.
Qed.

(** X13.  Below 2^53 the formatter never shows two different numbers of
    seconds the same way: the text determines the number. *)
Theorem formatTime_injective (a b : N) :
  a < 2 ^ 53 -> b < 2 ^ 53 -> a <> b -> formatTime a <> formatTime b.
Proof.
  intros HA HB Hne Heq. apply Hne. clear Hne.
  destruct (formatTime_parts a HA) as [Ha Hla].
  destruct (formatTime_parts b HB) as [Hb Hlb].
  rewrite Ha, Hb in Heq.
  assert (Hlen : String.length (zero_padded 2 (Js.toString (a / 60)))
                 = String.length (zero_padded 2 (Js.toString (b / 60)))).
  { apply (f_equal String.length) in Heq.
    rewrite !string_length_app, Hla, Hlb in Heq. simpl in Heq. lia. }
  destruct (append_inj_length _ _ _ _ Hlen Heq) as [Hmm Hrest].
  destruct (append_inj_length ":" ":" _ _ eq_refl Hrest) as [_ Hss].
  apply (f_equal read_decimal) in Hmm. apply (f_equal read_decimal) in Hss.
  rewrite !read_decimal_zero_padded, !read_decimal_toString in Hmm, Hss
    by apply toString_nonempty.
  injection Hmm as Hmm. injection Hss as Hss.
  rewrite (N.div_mod a 60), (N.div_mod b 60) by discriminate. congruence.
Qed.

Lemma formatTime_injective_witness :
  90 < 2 ^ 53 /\ 150 < 2 ^ 53 /\ 90 <> 150
  /\ formatTime 90 = "01:30" /\ formatTime 150 = "02:30"
  /\ formatTime 90 <> formatTime 150.
Proof.
  assert (H1 : 90 < 2 ^ 53) by reflexivity.
  assert (H2 : 150 < 2 ^ 53) by reflexivity.
  assert (H3 : 90 <> 150) by discriminate.
  do 3 (split; [assumption|]).
  split; [vm_compute; reflexivity|]. split; [vm_compute; reflexivity|].
  exact (formatTime_injective 90 150 H1 H2 H3).
Defined.

(** X14.  For less than 100 minutes (6000 seconds) the formatted time has
    exactly five characters, two digits on either side of the colon; from
    100 minutes on it is longer. *)
Theorem formatTime_width (s : N) :
  s < 2 ^ 53 ->
  (s < 6000 <-> String.length (formatTime s) = 5%nat).
Proof.
  intros Hs. destruct (formatTime_parts s Hs) as [Hf Hl].
  rewrite Hf, !string_length_app, Hl, length_zero_padded. simpl. split.
  - intros Hlt.
    assert (s / 60 < 100) as Hm by (apply N.Div0.div_lt_upper_bound; lia).
    apply length_toString_below_100 in Hm. lia.
  - intros Hlen. destruct (N.lt_ge_cases s 6000) as [Hlt | Hge]; [exact Hlt|].
    exfalso.
    assert (Hq : 100 <= s / 60) by (apply N.div_le_lower_bound; lia).
    assert (H3 : (3 <= String.length (Js.toString (s / 60)))%nat).
    { apply length_toString_from_100. exact Hq. }
    lia.
Qed.

Lemma formatTime_width_witness :
  1500 < 2 ^ 53 /\ 1500 < 6000 /\ String.length (formatTime 1500) = 5%nat.
Proof.
  assert (H1 : 1500 < 2 ^ 53) by reflexivity.
  assert (H2 : 1500 < 6000) by reflexivity.
  split; [exact H1|]. split; [exact H2|].
  exact (proj1 (formatTime_width 1500 H1) H2).
Defined.

(** ** The formatter beyond 2^53 *)

Lemma quotient_log2_below (a b : N) (j : N) :
  a <> 0 -> b <> 0 -> a < b * 2 ^ j -> (Js.quotient_log2 a b < Z.of_N j)%Z.
Proof.
  intros Ha Hb Hlt. unfold Js.quotient_log2.
  assert (Hla : 2 ^ N.log2 a <= a) by (apply N.log2_spec; lia).
  assert (Hlb : b < 2 ^ N.succ (N.log2 b)) by (apply N.log2_spec; lia).
  assert (Hlb' : 2 ^ N.log2 b <= b) by (apply N.log2_spec; lia).
  destruct (N.leb_spec (b * 2 ^ N.log2 a) (a * 2 ^ N.log2 b)) as [Hc | Hc].
  - assert (H : 2 ^ N.log2 a < 2 ^ (j + N.log2 b)).
    { rewrite N.pow_add_r.
      apply (N.mul_lt_mono_pos_l b); [lia|].
      eapply N.le_lt_trans; [exact Hc|].
      rewrite N.mul_assoc. apply N.mul_lt_mono_pos_r; [|exact Hlt].
      apply N.neq_0_lt_0, N.pow_nonzero. discriminate. }
    apply N.pow_lt_mono_r_iff in H; [lia | lia].
  - assert (H : 2 ^ N.log2 a < 2 ^ (N.succ (N.log2 b) + j)).
    { rewrite N.pow_add_r.
      eapply N.le_lt_trans; [exact Hla|]. eapply N.lt_le_trans; [exact Hlt|].
      apply N.mul_le_mono_r. lia. }
    apply N.pow_lt_mono_r_iff in H; [lia | lia].
Qed.

(** The floor of the rounded quotient is the floor of the exact one as
    long as the remainder [r] leaves a gap of [(60 - r) / 60] to the next
    integer that is wider than half the distance [1 / 2^k] of the doubles
    there. *)
Lemma floor_divide_60_gap (s k : N) :
  s <> 0 ->
  (Js.quotient_log2 s 60 <= 52 - Z.of_N k)%Z ->
  1 <= k ->
  30 < (60 - s mod 60) * 2 ^ k ->
  Js.floor (Js.divide s 60) = s / 60.
Proof.
  intros Hne Hq Hk Hgap. unfold Js.divide.
  destruct (N.eqb_spec s 0) as [-> | _]; [reflexivity|].
  unfold Js.floor. simpl.
  destruct (Z.leb_spec 0 (Js.quotient_log2 s 60 - 52)) as [Hge | Hneg]; [lia|].
  set (k' := Z.to_N (- (Js.quotient_log2 s 60 - 52))).
  assert (Hk' : k <= k') by (unfold k'; lia).
  assert (HP : 2 ^ k <= 2 ^ k') by (apply N.pow_le_mono_r; [discriminate | exact Hk']).
  destruct (round_ties_even_near (s * 2 ^ k') 60) as [Hup Hlow]; [discriminate|].
  set (m := Js.round_ties_even (s * 2 ^ k') 60) in *.
  set (P := 2 ^ k') in *.
  assert (Hdm : s = 60 * (s / 60) + s mod 60) by (apply N.div_mod; discriminate).
  assert (Hlt : s mod 60 < 60) by (apply N.mod_lt; discriminate).
  generalize dependent (s mod 60). generalize dependent (s / 60).
  intros q r Hgap Hdm Hlt.
  assert (HsP : s * P = 60 * (q * P) + r * P) by (rewrite Hdm at 1; ring).
  assert (Hgap' : 30 < (60 - r) * P).
  { eapply N.lt_le_trans; [exact Hgap|]. apply N.mul_le_mono_l. exact HP. }
  assert (HrP : (60 - r) * P + r * P = 60 * P).
  { rewrite <- N.mul_add_distr_r. f_equal. lia. }
  rewrite HsP in Hup, Hlow.
  symmetry. apply (N.div_unique m P q (m - q * P)); lia.
Qed.

(** A double that is at least [2^(52 + i)] is a multiple of [2^i]. *)
Lemma is_double_multiple (s i : N) :
  Js.is_double s = true -> 2 ^ (52 + i) <= s -> exists t, s = 2 ^ i * t.
Proof.
  unfold Js.is_double. intros Hd Hs.
  assert (Hne : s <> 0).
  { intros ->. pose proof (N.pow_nonzero 2 (52 + i)). lia. }
  destruct (N.eqb_spec s 0) as [? | _]; [contradiction|]. simpl in Hd.
  apply andb_true_iff in Hd as [_ Hm]. apply N.eqb_eq in Hm.
  assert (Hlog : 52 + i <= N.log2 s) by (apply N.log2_le_pow2; lia).
  apply N.Div0.mod_divides in Hm as [c Hc].
  replace (N.log2 s - 52) with (i + (N.log2 s - 52 - i)) in Hc by lia.
  rewrite N.pow_add_r, <- N.mul_assoc in Hc.
  exists (2 ^ (N.log2 s - 52 - i) * c). exact Hc.
Qed.

(** X15.  The formatter prints the minutes [s / 60] for every number of
    seconds that a double holds exactly and that is below
    67553994410557496, and the minutes it prints there are below 2^53:
    beyond 2^53 the doubles are even, then multiples of 4 and of 8, which
    keeps the remainder of the division by 60 far enough from 60 for the
    rounding of the quotient not to reach the next integer.  The bound is
    the least number of seconds at which it does. *)
Theorem formatTime_exact_below_first_rounding (s : N) :
  Js.is_double s = true ->
  s < 67553994410557496 ->
  formatTime s
  = zero_padded 2 (Js.toString (s / 60)) +:+ ":" +:+ zero_padded 2 (Js.toString (s mod 60))
  /\ s / 60 < 2 ^ 53.
Proof.
  intros Hd Hs.
  assert (Hfloor : Js.floor (Js.divide s 60) = s / 60).
  { destruct (N.lt_ge_cases s (2 ^ 53)) as [Hsmall | Hbig];
      [now apply floor_divide_60|].
    assert (Hne : s <> 0) by (intros ->; vm_compute in Hbig; contradiction).
    assert (Hdm : s = 60 * (s / 60) + s mod 60) by (apply N.div_mod; discriminate).
    assert (Hlt : s mod 60 < 60) by (apply N.mod_lt; discriminate).
    destruct (N.lt_ge_cases s (60 * 2 ^ 49)) as [H49 | H49];
      [|destruct (N.lt_ge_cases s (60 * 2 ^ 50)) as [H50 | H50]].
    - destruct (is_double_multiple s 1 Hd Hbig) as [t Ht].
      apply (floor_divide_60_gap s 4 Hne); [|lia|].
      + pose proof (quotient_log2_below s 60 49 Hne ltac:(discriminate) H49). lia.
      + change (2 ^ 1) with 2 in Ht. change (2 ^ 4) with 16. lia.
    - assert (Hbig' : 2 ^ (52 + 2) <= s).
      { eapply N.le_trans; [|exact H49]. vm_compute. discriminate. }
      destruct (is_double_multiple s 2 Hd Hbig') as [t Ht].
      apply (floor_divide_60_gap s 3 Hne); [|lia|].
      + pose proof (quotient_log2_below s 60 50 Hne ltac:(discriminate) H50). lia.
      + change (2 ^ 2) with 4 in Ht. change (2 ^ 3) with 8. lia.
    - assert (Hbig' : 2 ^ (52 + 3) <= s).
      { eapply N.le_trans; [|exact H50]. vm_compute. discriminate. }
      destruct (is_double_multiple s 3 Hd Hbig') as [t Ht].
      assert (H51 : s < 60 * 2 ^ 51).
      { eapply N.lt_trans; [exact Hs|]. reflexivity. }
      apply (floor_divide_60_gap s 2 Hne); [|lia|].
      + pose proof (quotient_log2_below s 60 51 Hne ltac:(discriminate) H51). lia.
      + change (2 ^ 3) with 8 in Ht. change (2 ^ 2) with 4.
        change (60 * 2 ^ 50) with 67553994410557440 in H50. lia. }
  split.
  - unfold formatTime. now rewrite Hfloor, !padStart_zero.
  - apply N.Div0.div_lt_upper_bound. eapply N.lt_trans; [exact Hs|]. reflexivity.
Qed.

Lemma formatTime_exact_below_first_rounding_witness :
  Js.is_double 67553994410557488 = true
  /\ 67553994410557488 < 67553994410557496
  /\ 2 ^ 53 < 67553994410557488
  /\ 67553994410557488 / 60 = 1125899906842624
  /\ 67553994410557488 mod 60 = 48
  /\ formatTime 67553994410557488 = "1125899906842624:48".
Proof.
  assert (H1 : Js.is_double 67553994410557488 = true) by (vm_compute; reflexivity).
  assert (H2 : 67553994410557488 < 67553994410557496) by reflexivity.
  split; [exact H1|]. split; [exact H2|].
  split; [reflexivity|]. split; [reflexivity|]. split; [reflexivity|].
  rewrite (proj1 (formatTime_exact_below_first_rounding _ H1 H2)).
  vm_compute. reflexivity.
Defined.

(** ** The list of selected files (FileUpload.tsx) *)

Section Selected_files.

Context {File : Type}.

Lemma filter_index_skip (k i : nat) (l : list File) :
  Upload.filter_index File (fun j => negb (j =? k + i)%nat) k l = take i l ++ drop (S i) l.
Proof.
  revert k i. induction l as [|x l IH]; intros k i; simpl.
  - now rewrite take_nil.
  - destruct i as [|i].
    + rewrite Nat.add_0_r, Nat.eqb_refl. simpl. rewrite drop_0.
      clear IH. generalize (S k) as j, (Nat.lt_succ_diag_r k). intros j.
      induction l as [|y l IHl] in j |- *; intros Hj; simpl; [reflexivity|].
      destruct (Nat.eqb_spec j k) as [-> | _]; [lia|]. simpl.
      f_equal. apply IHl. lia.
    + destruct (Nat.eqb_spec k (k + S i)) as [? | _]; [lia|]. simpl. f_equal.
      replace (k + S i)%nat with (S k + i)%nat by lia. apply IH.
Qed.

Lemma removeFile_take_drop (index : nat) (prev : list File) :
  Upload.removeFile File index prev = take index prev ++ drop (S index) prev.
Proof. apply (filter_index_skip 0 index prev). Qed.

End Selected_files.

(** X16.  While at most ten files are selected, a drop appends the dropped
    files in their order, as many as fit, to the files already selected:
    the earlier files keep their places, and the list never grows beyond
    ten. *)
Theorem onDrop_appends_up_to_ten {File : Type} (acceptedFiles prev : list File) :
  (length prev <= 10)%nat ->
  Upload.onDrop File acceptedFiles prev = prev ++ take (10 - length prev) acceptedFiles
  /\ length (Upload.onDrop File acceptedFiles prev)
     = Nat.min 10 (length prev + length acceptedFiles)
  /\ (forall i f, prev !! i = Some f -> Upload.onDrop File acceptedFiles prev !! i = Some f).
Proof.
  intros Hprev.
  assert (Heq : Upload.onDrop File acceptedFiles prev
                = prev ++ take (10 - length prev) acceptedFiles).
  { unfold Upload.onDrop. destruct acceptedFiles as [|f fs].
    - now rewrite take_nil, app_nil_r.
    - rewrite take_app_ge by exact Hprev. f_equal.
      rewrite take_take. f_equal. lia. }
  rewrite Heq. split; [reflexivity|]. split.
  - rewrite length_app, length_take. lia.
  - intros i f Hi. now apply lookup_app_l_Some.
Qed.

Lemma onDrop_appends_up_to_ten_witness :
  (length ["a"; "b"; "c"; "d"; "e"; "f"; "g"; "h"] <= 10)%nat
  /\ Upload.onDrop string ["i"; "j"; "k"; "l"] ["a"; "b"; "c"; "d"; "e"; "f"; "g"; "h"]
     = ["a"; "b"; "c"; "d"; "e"; "f"; "g"; "h"; "i"; "j"].
Proof.
  assert (H : (length ["a"; "b"; "c"; "d"; "e"; "f"; "g"; "h"] <= 10)%nat) by (simpl; lia).
  split; [exact H|].
  rewrite (proj1 (onDrop_appends_up_to_ten ["i"; "j"; "k"; "l"]
                    ["a"; "b"; "c"; "d"; "e"; "f"; "g"; "h"] H)).
  reflexivity.
Defined.

(** X17.  Removing the file at an index deletes exactly that element: the
    files before it keep their places, the files after it move up by one,
    and an index beyond the list removes nothing. *)
Theorem removeFile_deletes_index {File : Type} (index : nat) (prev : list File) :
  Upload.removeFile File index prev = take index prev ++ drop (S index) prev
  /\ (forall j, Upload.removeFile File index prev !! j
                = prev !! (if (j <? index)%nat then j else S j))
  /\ length (Upload.removeFile File index prev)
     = (if (index <? length prev)%nat then length prev - 1 else length prev)%nat.
Proof.
  assert (Heq : Upload.removeFile File index prev = take index prev ++ drop (S index) prev)
    by apply removeFile_take_drop.
  rewrite Heq. split; [reflexivity|]. split.
  - intros j. destruct (Nat.ltb_spec j index) as [Hlt | Hge].
    + destruct (Nat.lt_ge_cases j (length prev)) as [Hj | Hj].
      * rewrite lookup_app_l by (rewrite length_take; lia).
        now apply lookup_take_lt.
      * rewrite (lookup_ge_None_2 prev j) by exact Hj.
        apply lookup_ge_None_2. rewrite length_app, length_take, length_drop. lia.
    + destruct (Nat.lt_ge_cases index (length prev)) as [Hi | Hi].
      * rewrite lookup_app_r by (rewrite length_take; lia).
        rewrite length_take, lookup_drop. f_equal. lia.
      * rewrite (lookup_ge_None_2 prev (S j)) by lia.
        apply lookup_ge_None_2. rewrite length_app, length_take, length_drop. lia.
  - rewrite length_app, length_take, length_drop.
    destruct (Nat.ltb_spec index (length prev)); lia.
Qed.

(** X18.  Dropping one file while fewer than ten are selected and then
    removing the last entry gives back the list from before; with ten
    files selected the drop itself changes nothing. *)
Theorem onDrop_then_removeFile {File : Type} (f : File) (prev : list File) :
  (length prev <= 10)%nat ->
  (length prev < 10 ->
   Upload.removeFile File (length prev) (Upload.onDrop File [f] prev) = prev)%nat
  /\ (length prev = 10 -> Upload.onDrop File [f] prev = prev)%nat.
Proof.
  intros Hle. split.
  - intros Hlt. unfold Upload.onDrop. simpl.
    rewrite take_ge by (rewrite length_app; simpl; lia).
    rewrite removeFile_take_drop.
    rewrite take_app_length, drop_ge by (rewrite length_app; simpl; lia).
    apply app_nil_r.
  - intros H10. unfold Upload.onDrop. simpl.
    rewrite take_app_le by lia. apply take_ge. lia.
Qed.

Lemma onDrop_then_removeFile_witness :
  (length ["a"; "b"; "c"] <= 10)%nat /\ (length ["a"; "b"; "c"] < 10)%nat
  /\ Upload.onDrop string ["d"] ["a"; "b"; "c"] = ["a"; "b"; "c"; "d"]
  /\ Upload.removeFile string 3 (Upload.onDrop string ["d"] ["a"; "b"; "c"])
     = ["a"; "b"; "c"].
Proof.
  assert (H1 : (length ["a"; "b"; "c"] <= 10)%nat) by (simpl; lia).
  assert (H2 : (length ["a"; "b"; "c"] < 10)%nat) by (simpl; lia).
  split; [exact H1|]. split; [exact H2|]. split; [reflexivity|].
  exact (proj1 (onDrop_then_removeFile "d" ["a"; "b"; "c"] H1) H2).
Defined.
